(** * The Shopee Thailand crawler (tools/shopee-crawler/src/crawler.ts)

    A shallow embedding of the crawler's pure logic: the slug generator,
    the link discovery loop, the in-page field extraction, the record
    normalisation, the catalog writer and the main loop.

    The browser, the clock and the catalog store are the program's
    environment.  They appear here as explicit inputs: a [World] answers
    what each page contains, clock readings are arguments, and the store
    is an interface ([CatalogStore]) with an abstract state. *)

From Stdlib Require Import String Ascii.
From Stdlib Require Import ZArith NArith QArith Qround List Bool Lia DecimalZ.
Import ListNotations.

Set Implicit Arguments.
Close Scope Q_scope.

(* ================================================================== *)
(** * The JavaScript runtime, as far as the crawler uses it *)
(* ================================================================== *)

Module Js.

Local Open Scope N_scope.

(** A JavaScript string is a sequence of UTF-16 code units. *)
Definition char16 := N.
Definition jsstring := list char16.

Definition of_ascii (s : string) : jsstring :=
  map N_of_ascii (list_ascii_of_string s).

Definition str_eqb (a b : jsstring) : bool :=
  if list_eq_dec N.eq_dec a b then true else false.

(** ** Character classes of the regular expressions *)

Definition in_range (lo hi c : char16) : bool :=
  ((lo <=? c) && (c <=? hi))%N.

(** [\d] *)
Definition is_digit (c : char16) : bool := in_range 48 57 c.

(** [a-z] *)
Definition is_lower_latin (c : char16) : bool := in_range 97 122 c.

(** [가-힣], U+AC00 to U+D7A3 *)
Definition is_hangul (c : char16) : bool := in_range 0xAC00 0xD7A3 c.

(** [ก-๙], U+0E01 to U+0E59 *)
Definition is_thai (c : char16) : bool := in_range 0x0E01 0x0E59 c.

Definition hyphen : char16 := 45%N.
Definition dot : char16 := 46%N.
Definition comma : char16 := 44%N.
Definition percent : char16 := 37%N.
Definition baht : char16 := 0x0E3F%N.

(** [\s]: the white space and line terminator code points of ECMAScript:
    TAB, LF, VT, FF, CR, SP, NBSP, U+1680, U+2000..U+200A, U+2028,
    U+2029, U+202F, U+205F, U+3000, U+FEFF. *)
Definition is_space (c : char16) : bool :=
  in_range 9 13 c || (c =? 32)%N || (c =? 160)%N || (c =? 0x1680)%N
  || in_range 0x2000 0x200A c || (c =? 0x2028)%N || (c =? 0x2029)%N
  || (c =? 0x202F)%N || (c =? 0x205F)%N || (c =? 0x3000)%N
  || (c =? 0xFEFF)%N.

(** ** String methods *)

Fixpoint startsWith (prefix s : jsstring) : bool :=
  match prefix, s with
  | [], _ => true
  | _ :: _, [] => false
  | p :: prefix', c :: s' => (p =? c)%N && startsWith prefix' s'
  end.

(** [s.includes(needle)] *)
Fixpoint includes (needle s : jsstring) : bool :=
  startsWith needle s ||
  match s with
  | [] => false
  | _ :: s' => includes needle s'
  end.

(** [s.substring(0, n)] *)
Definition substring0 (n : nat) (s : jsstring) : jsstring := firstn n s.

Fixpoint dropWhile (p : char16 -> bool) (s : jsstring) : jsstring :=
  match s with
  | [] => []
  | c :: s' => if p c then dropWhile p s' else s
  end.

(** The longest prefix of [s] whose characters satisfy [p], and the rest. *)
Fixpoint span (p : char16 -> bool) (s : jsstring) : jsstring * jsstring :=
  match s with
  | [] => ([], [])
  | c :: s' =>
      if p c then let (a, b) := span p s' in (c :: a, b) else ([], s)
  end.

(** [s.trim()] *)
Definition trim (s : jsstring) : jsstring :=
  rev (dropWhile is_space (rev (dropWhile is_space s))).

(** [s.replace(/,/g, '')] and the like: delete the characters not kept. *)
Definition keep (p : char16 -> bool) (s : jsstring) : jsstring := filter p s.

(** [s.replace(/\s+/g, '-')]: every maximal run of white space becomes one
    hyphen.  [in_run] tells that the previous character was white space. *)
Fixpoint replace_space_runs (in_run : bool) (s : jsstring) : jsstring :=
  match s with
  | [] => []
  | c :: s' =>
      if is_space c
      then (if in_run then replace_space_runs true s'
            else hyphen :: replace_space_runs true s')
      else c :: replace_space_runs false s'
  end.

(** A regular expression without the sticky flag is tried at position 0,
    then 1, and so on; the first position where it matches wins.
    [try_at] is the match attempt anchored at the head of its argument. *)
Fixpoint regex_search {A} (try_at : jsstring -> option A) (s : jsstring)
  : option A :=
  match try_at s with
  | Some r => Some r
  | None =>
      match s with
      | [] => None
      | _ :: s' => regex_search try_at s'
      end
  end.

(** ** Numbers *)

(** A JavaScript number is modelled by its exact rational value, or NaN.
    The rounding of IEEE doubles and the infinities are not modelled; the
    comparisons the crawler performs are those of the rational order. *)
Inductive number : Type :=
| NaN
| Num (q : Q).

Definition of_Z (z : Z) : number := Num (inject_Z z).

(** Truthiness of a number: false for [0] and [NaN]. *)
Definition truthy (n : number) : bool :=
  match n with
  | NaN => false
  | Num q => negb (Qeq_bool q 0%Q)
  end.

(** [a < b], [a > b], [a >= b], [a <= b]; every comparison with NaN is
    false. *)
Definition ltb (a b : number) : bool :=
  match a, b with
  | Num x, Num y => match (x ?= y)%Q with Lt => true | _ => false end
  | _, _ => false
  end.

Definition gtb (a b : number) : bool := ltb b a.

Definition leb (a b : number) : bool :=
  match a, b with
  | Num x, Num y => Qle_bool x y
  | _, _ => false
  end.

Definition geb (a b : number) : bool := leb b a.

Definition mul (a b : number) : number :=
  match a, b with
  | Num x, Num y => Num (x * y)%Q
  | _, _ => NaN
  end.

(** [Math.round]: the nearest integer, ties towards plus infinity. *)
Definition Math_round (a : number) : number :=
  match a with
  | NaN => NaN
  | Num x => of_Z (Qfloor (x + (1 # 2))%Q)
  end.

(** The value of a run of decimal digits, most significant first. *)
Definition digit_value (c : char16) : N := (c - 48)%N.

Definition digits_value (ds : jsstring) : N :=
  fold_left (fun acc c => (10 * acc + digit_value c)%N) ds 0%N.

(** [parseFloat] on the strings the crawler passes to it, which consist
    of digits and dots only: the longest prefix of the form [ddd],
    [ddd.ddd], [ddd.] or [.ddd] is the value; no such prefix gives NaN. *)
Definition parseFloat (s : jsstring) : number :=
  let (int_part, rest) := span is_digit s in
  let frac_part :=
    match rest with
    | c :: rest' => if (c =? dot)%N then fst (span is_digit rest') else []
    | [] => []
    end in
  match int_part, frac_part with
  | [], [] => NaN
  | _, _ =>
      let scale := N.pow 10 (N.of_nat (length frac_part)) in
      Num (Qmake (Z.of_N (digits_value int_part * scale
                          + digits_value frac_part))
                 (N.succ_pos (N.pred scale)))
  end.

(** [parseInt] on a non-empty run of decimal digits. *)
Definition parseInt (s : jsstring) : number :=
  match fst (span is_digit s) with
  | [] => NaN
  | ds => of_Z (Z.of_N (digits_value ds))
  end.

(** ** Number to string *)

Fixpoint uint_units (d : Decimal.uint) : jsstring :=
  match d with
  | Decimal.Nil => []
  | Decimal.D0 d' => 48%N :: uint_units d'
  | Decimal.D1 d' => 49%N :: uint_units d'
  | Decimal.D2 d' => 50%N :: uint_units d'
  | Decimal.D3 d' => 51%N :: uint_units d'
  | Decimal.D4 d' => 52%N :: uint_units d'
  | Decimal.D5 d' => 53%N :: uint_units d'
  | Decimal.D6 d' => 54%N :: uint_units d'
  | Decimal.D7 d' => 55%N :: uint_units d'
  | Decimal.D8 d' => 56%N :: uint_units d'
  | Decimal.D9 d' => 57%N :: uint_units d'
  end.

(** The decimal rendering of an integer-valued number, as a template
    literal interpolates it: the digits, preceded by a minus sign for a
    negative value. *)
Definition int_to_string (z : Z) : jsstring :=
  match Z.to_int z with
  | Decimal.Pos d => uint_units d
  | Decimal.Neg d => hyphen :: uint_units d
  end.

(** ** Builtins taken from the host *)

(** [String.prototype.toLowerCase] follows the Unicode case mapping
    tables of the host; the crawler's logic is stated for any such
    function. *)
Class Runtime : Type := { toLowerCase : jsstring -> jsstring }.

(** The builtin on ASCII text: [A-Z] become [a-z], every other code unit
    stays. *)
Definition ascii_lower (c : char16) : char16 :=
  if in_range 65 90 c then (c + 32)%N else c.

Definition ascii_runtime : Runtime := {| toLowerCase := map ascii_lower |}.

(** [new Set(xs)] spread back into an array: the first occurrence of each
    value, in order of first occurrence. *)
Fixpoint distinct_from (seen : list jsstring) (xs : list jsstring)
  : list jsstring :=
  match xs with
  | [] => []
  | x :: xs' =>
      if existsb (str_eqb x) seen then distinct_from seen xs'
      else x :: distinct_from (x :: seen) xs'
  end.

Definition set_spread (xs : list jsstring) : list jsstring :=
  distinct_from [] xs.

(** [xs.includes(x)] on an array of strings. *)
Definition array_includes (xs : list jsstring) (x : jsstring) : bool :=
  existsb (str_eqb x) xs.

(** [xs.slice(0, n)] for an integer [n]: the first [n] elements, or all
    but the last [-n] when [n] is negative. *)
Definition slice0 {A} (xs : list A) (n : Z) : list A :=
  if (0 <=? n)%Z then firstn (Z.to_nat n) xs
  else firstn (length xs - Z.to_nat (- n))%nat xs.

End Js.

Import Js.
Local Open Scope N_scope.

(* ================================================================== *)
(** * The slug generator *)
(* ================================================================== *)

(** The characters the first [replace] of [createSlug] keeps:
    [[a-z0-9가-힣ก-๙\s-]]. *)
Definition slug_keeps (c : char16) : bool :=
  is_lower_latin c || is_digit c || is_hangul c || is_thai c
  || is_space c || (c =? hyphen)%N.

(** What [createSlug] appends: a hyphen and the clock reading. *)
Definition discriminator (now : Z) : jsstring :=
  hyphen :: int_to_string now.

(** [createSlug(title)], with the value [Date.now()] returns as [now]. *)
Definition createSlug `{Runtime} (title : jsstring) (now : Z) : jsstring :=
  substring0 80%nat
    (replace_space_runs false (keep slug_keeps (toLowerCase title)))
  ++ discriminator now.


(* ================================================================== *)
(** * The browser's documents *)
(* ================================================================== *)

(** An element, as far as the crawler reads it.  [textContent] of an
    element is always a string. *)
Record Element : Type := {
  textContent : jsstring;
  getAttribute : string -> option jsstring
}.

(** A loaded page.  Selectors are the source's CSS selectors, written with
    single quotes around attribute values. *)
Record Document : Type := {
  location_href : jsstring;
  location_pathname : jsstring;
  querySelectorAll : string -> list Element
}.

Definition querySelector (doc : Document) (selector : string)
  : option Element :=
  hd_error (querySelectorAll doc selector).

Definition nonempty (s : jsstring) : bool :=
  match s with [] => false | _ :: _ => true end.

(** [a || b] on values that are a string or null. *)
Definition or_else (a b : option jsstring) : option jsstring :=
  match a with
  | Some (_ :: _) => a
  | _ => b
  end.

(** [a || null] *)
Definition or_null (a : jsstring) : option jsstring :=
  match a with
  | [] => None
  | _ :: _ => Some a
  end.

(* ================================================================== *)
(** * Link discovery *)
(* ================================================================== *)

(** A non-empty run of digits at the head of [s], and what follows it. *)
Definition digits_at (s : jsstring) : option (jsstring * jsstring) :=
  match span is_digit s with
  | ([], _) => None
  | (ds, rest) => Some (ds, rest)
  end.

(** [prefix(\d+)sep(\d+)] anchored at the head of [s]; the two groups. *)
Definition id_pair_at (prefix : jsstring) (sep : char16) (s : jsstring)
  : option (jsstring * jsstring) :=
  if startsWith prefix s then
    match digits_at (skipn (length prefix) s) with
    | Some (first, c :: rest) =>
        if c =? sep then
          match digits_at rest with
          | Some (second, _) => Some (first, second)
          | None => None
          end
        else None
    | _ => None
    end
  else None.

(** [/-i\.(\d+)\.(\d+)/] *)
Definition item_link_at : jsstring -> option (jsstring * jsstring) :=
  id_pair_at (of_ascii "-i.") dot.

(** [/\/product\/(\d+)\/(\d+)/] *)
Definition product_path_at : jsstring -> option (jsstring * jsstring) :=
  id_pair_at (of_ascii "/product/") 47.

Definition is_some {A} (o : option A) : bool :=
  match o with Some _ => true | None => false end.

(** The test [extractLinksFromPage] applies to every [href]. *)
Definition is_product_link (href : jsstring) : bool :=
  includes (of_ascii "-i.") href && is_some (regex_search item_link_at href).

Definition fullUrl (href : jsstring) : jsstring :=
  if startsWith (of_ascii "http") href then href
  else of_ascii "https://shopee.co.th" ++ href.

(** The array [links] built by the [forEach] over the anchors. *)
Definition links (hrefs : list jsstring) : list jsstring :=
  map fullUrl (filter is_product_link hrefs).

(** What the browser answers for a listing page: navigation may throw; the
    in-page script may throw; otherwise the page has anchors, given by
    their [href] attributes in document order. *)
Inductive Listing : Type :=
| NavigationFails
| ScriptFails
| Anchors (hrefs : list jsstring).

(** [extractLinksFromPage(page)] on a page the browser has reached. *)
Definition extractLinksFromPage (page : Listing) : list jsstring :=
  match page with
  | Anchors hrefs => set_spread (links hrefs)
  | _ => []
  end.

Record EntryPoint : Type := { name : string; url : jsstring }.

Definition urlsToTry : list EntryPoint :=
  [ {| name := "검색: 전자기기";
       url := of_ascii "https://shopee.co.th/search?keyword=electronics" |};
    {| name := "검색: 핸드폰";
       url := of_ascii "https://shopee.co.th/search?keyword=phone" |};
    {| name := "검색: 패션";
       url := of_ascii "https://shopee.co.th/search?keyword=fashion" |};
    {| name := "검색: 뷰티";
       url := of_ascii "https://shopee.co.th/search?keyword=beauty" |};
    {| name := "검색: 가전";
       url := of_ascii "https://shopee.co.th/search?keyword=appliances" |} ].

(** One iteration of the loop of [getProductUrls] past its guard: the
    links of the page that are not yet in [productUrls] are pushed. *)
Definition visit (browse : jsstring -> Listing) (productUrls : list jsstring)
  (entry : EntryPoint) : list jsstring :=
  match browse (url entry) with
  | NavigationFails => productUrls
  | page =>
      let urls := extractLinksFromPage page in
      let newUrls :=
        filter (fun u => negb (array_includes productUrls u)) urls in
      productUrls ++ newUrls
  end.

(** The [for ... of] loop of [getProductUrls].  The second component is
    the list of entry points the loop went on to visit, in order. *)
Fixpoint discoverLoop (browse : jsstring -> Listing) (maxProducts : Z)
  (entries : list EntryPoint) (productUrls : list jsstring)
  : list jsstring * list EntryPoint :=
  match entries with
  | [] => (productUrls, [])
  | entry :: rest =>
      if (Z.of_nat (length productUrls) >=? maxProducts)%Z
      then (productUrls, [])
      else
        let (found, visited) :=
          discoverLoop browse maxProducts rest (visit browse productUrls entry)
        in (found, entry :: visited)
  end.

(** [getProductUrls(browser, maxProducts)] *)
Definition getProductUrls (browse : jsstring -> Listing) (maxProducts : Z)
  : list jsstring :=
  slice0 (fst (discoverLoop browse maxProducts urlsToTry [])) maxProducts.

(** The entry points a call of [getProductUrls] navigates to. *)
Definition visitedEntries (browse : jsstring -> Listing) (maxProducts : Z)
  : list EntryPoint :=
  snd (discoverLoop browse maxProducts urlsToTry []).

(* ================================================================== *)
(** * Records (types.ts) *)
(* ================================================================== *)

(** The object the in-page script of [extractProductDetails] returns. *)
Module ProductData.
Record t : Type := {
  itemId : jsstring;
  shopId : jsstring;
  title : jsstring;
  description : jsstring;
  thumbnailUrl : jsstring;
  imageUrls : list jsstring;
  videoUrl : option jsstring;
  price : option number;
  originalPrice : option number;
  discountPercent : option number;
  rating : number;
  reviewCount : number;
  soldCount : number;
  shopName : jsstring;
  category : jsstring;
  freeShipping : bool
}.
End ProductData.

Module ShopeeProduct.
Record t : Type := {
  itemId : jsstring;
  shopId : jsstring;
  title : jsstring;
  slug : jsstring;
  description : jsstring;
  thumbnailUrl : jsstring;
  imageUrls : list jsstring;
  videoUrl : option jsstring;
  price : number;
  originalPrice : option number;
  priceKrw : option number;
  currency : jsstring;
  discountPercent : option number;
  rating : number;
  reviewCount : number;
  soldCount : number;
  category : jsstring;
  shopName : jsstring;
  shopLocation : option jsstring;
  freeShipping : bool;
  sourceUrl : jsstring;
  crawledAt : Z
}.
End ShopeeProduct.

Module ProductInsert.
Record t : Type := {
  title : jsstring;
  slug : jsstring;
  description : option jsstring;
  thumbnail_url : option jsstring;
  video_url : option jsstring;
  original_price : number;
  currency : jsstring;
  price_krw : option number;
  discount_rate : option number;
  source_platform : jsstring;
  source_url : jsstring;
  external_rating : option number;
  external_review_count : number;
  purchase_count : number;
  tags : list jsstring;
  is_featured : bool;
  is_active : bool;
  category_id : option jsstring
}.
End ProductInsert.

(* ================================================================== *)
(** * Field extraction (the in-page script of [extractProductDetails]) *)
(* ================================================================== *)

Section FieldExtraction.

Context `{Runtime}.
Variable doc : Document.

(** ** Shop and item identifiers *)

Definition urlMatch : option (jsstring * jsstring) :=
  regex_search item_link_at (location_href doc).

Definition productMatch : option (jsstring * jsstring) :=
  regex_search product_path_at (location_pathname doc).

(** The pair [(shopId, itemId)]. *)
Definition extract_ids : jsstring * jsstring :=
  match urlMatch with
  | Some ids => ids
  | None =>
      match productMatch with
      | Some ids => ids
      | None => ([], [])
      end
  end.

(** ** Title *)

Definition titleSelectors : list string :=
  [ "div[class*='product-title']";
    "h1[class*='title']";
    "span[class*='VhWBwF']";
    ".product-info span";
    "div[data-sqe='name']";
    "h1" ]%string.

Fixpoint title_loop (selectors : list string) : jsstring :=
  match selectors with
  | [] => []
  | selector :: rest =>
      match querySelector doc selector with
      | Some el =>
          if nonempty (trim (textContent el)) then trim (textContent el)
          else title_loop rest
      | None => title_loop rest
      end
  end.

(** ** Price *)

Definition priceSelectors : list string :=
  [ "div[class*='pqTWkA']";
    "div[class*='price']";
    "span[class*='price']";
    "div[aria-label*='฿']" ]%string.

Definition is_digit_or_comma (c : char16) : bool :=
  is_digit c || (c =? comma).

(** [/฿?\s*([\d,]+(?:\.\d{2})?)/] anchored at the head of [s]; group 1. *)
Definition price_at (s : jsstring) : option jsstring :=
  let after_sign :=
    match s with
    | c :: s' => if c =? baht then s' else s
    | [] => s
    end in
  match span is_digit_or_comma (dropWhile is_space after_sign) with
  | ([], _) => None
  | (run, c :: d1 :: d2 :: _) =>
      if (c =? dot) && is_digit d1 && is_digit d2
      then Some (run ++ [c; d1; d2])
      else Some run
  | (run, _) => Some run
  end.

Definition not_comma (c : char16) : bool := negb (c =? comma).

(** The [value] computed for one price element, when its text matches. *)
Definition price_value (text : jsstring) : option number :=
  match regex_search price_at text with
  | Some group => Some (parseFloat (keep not_comma group))
  | None => None
  end.

(** Truthiness of a value that is a number or null. *)
Definition truthy_opt (p : option number) : bool :=
  match p with
  | Some n => truthy n
  | None => false
  end.

(** A number or null used as an operand of [<] or [>]: null counts as 0. *)
Definition to_number (p : option number) : number :=
  match p with
  | Some n => n
  | None => of_Z 0
  end.

(** The body of the [if (match)] of the price loop, on the pair
    [(price, originalPrice)]. *)
Definition price_step (st : option number * option number) (value : number)
  : option number * option number :=
  let (price, originalPrice) := st in
  if negb (truthy_opt price) || ltb value (to_number price) then
    (Some value, if truthy_opt price then price else originalPrice)
  else if gtb value (to_number price) then (price, Some value)
  else (price, originalPrice).

(** The [forEach] over the elements one selector yields. *)
Definition scan_prices (st : option number * option number)
  (els : list Element) : option number * option number :=
  fold_left
    (fun st el =>
       match price_value (textContent el) with
       | Some value => price_step st value
       | None => st
       end)
    els st.

Fixpoint price_loop (selectors : list string)
  (st : option number * option number) : option number * option number :=
  match selectors with
  | [] => st
  | selector :: rest =>
      let st' := scan_prices st (querySelectorAll doc selector) in
      if truthy_opt (fst st') then st' else price_loop rest st'
  end.

(** The pair [(price, originalPrice)] the script ends with. *)
Definition extract_prices : option number * option number :=
  price_loop priceSelectors (None, None).

(** ** Discount *)

(** [/(\d+)%/] anchored at the head of [s]; group 1. *)
Definition percent_at (s : jsstring) : option jsstring :=
  match digits_at s with
  | Some (ds, c :: _) => if c =? percent then Some ds else None
  | _ => None
  end.

Definition extract_discountPercent : option number :=
  match querySelector doc
          "div[class*='percent'], span[class*='discount']" with
  | Some discountEl =>
      match regex_search percent_at (textContent discountEl) with
      | Some group => Some (parseInt group)
      | None => None
      end
  | None => None
  end.

(** ** Rating *)

Definition ratingSelectors : list string :=
  [ "div[class*='rating'] span";
    "div[class*='star'] + span";
    "span[class*='rating']" ]%string.

Definition is_digit_or_dot (c : char16) : bool :=
  is_digit c || (c =? dot).

(** A non-empty run of characters of the class [p] at the head of [s]:
    [/([...]+)/] anchored; the run and what follows it. *)
Definition run_at (p : char16 -> bool) (s : jsstring)
  : option (jsstring * jsstring) :=
  match span p s with
  | ([], _) => None
  | (run, rest) => Some (run, rest)
  end.

Fixpoint rating_loop (selectors : list string) (rating : number) : number :=
  match selectors with
  | [] => rating
  | selector :: rest =>
      match querySelector doc selector with
      | Some el =>
          match regex_search (run_at is_digit_or_dot) (textContent el) with
          | Some (group, _) =>
              let rating' := parseFloat group in
              if geb rating' (of_Z 1) && leb rating' (of_Z 5) then rating'
              else rating_loop rest rating'
          | None => rating_loop rest rating
          end
      | None => rating_loop rest rating
      end
  end.

Definition extract_rating : number := rating_loop ratingSelectors (of_Z 0).

(** ** Review count *)

Definition reviewSelectors : list string :=
  [ "div[class*='rating-count']";
    "span[class*='review']";
    "a[href*='reviews']" ]%string.

Definition is_count_char (c : char16) : bool :=
  is_digit c || (c =? comma) || (c =? dot).

Definition letter_k : jsstring := of_ascii "k".

Fixpoint review_loop (selectors : list string) (reviewCount : number)
  : number :=
  match selectors with
  | [] => reviewCount
  | selector :: rest =>
      match querySelector doc selector with
      | Some el =>
          match regex_search (run_at is_count_char) (textContent el) with
          | Some (group, _) =>
              let count := parseFloat (keep not_comma group) in
              let count :=
                if includes letter_k (toLowerCase (textContent el))
                then mul count (of_Z 1000) else count in
              let reviewCount' := Math_round count in
              if gtb reviewCount' (of_Z 0) then reviewCount'
              else review_loop rest reviewCount'
          | None => review_loop rest reviewCount
          end
      | None => review_loop rest reviewCount
      end
  end.

Definition extract_reviewCount : number :=
  review_loop reviewSelectors (of_Z 0).

(** ** Sold count *)

Definition soldSelectors : list string :=
  [ "div[class*='sold']";
    "span[class*='sold']";
    "div[class*='historical-sold']" ]%string.

(** พัน, หมื่น, แสน *)
Definition thai_thousand : jsstring := [0x0E1E; 0x0E31; 0x0E19].
Definition thai_ten_thousand : jsstring :=
  [0x0E2B; 0x0E21; 0x0E37; 0x0E48; 0x0E19].
Definition thai_hundred_thousand : jsstring := [0x0E41; 0x0E2A; 0x0E19].

(** [(k|พัน|หมื่น|แสน)?] under the [i] flag, anchored at the head of [s]:
    the text of group 2, if it took part in the match. *)
Definition unit_at (s : jsstring) : option jsstring :=
  match s with
  | c :: _ =>
      if (c =? 107) || (c =? 75) then Some [c]
      else if startsWith thai_thousand s then Some thai_thousand
      else if startsWith thai_ten_thousand s then Some thai_ten_thousand
      else if startsWith thai_hundred_thousand s
           then Some thai_hundred_thousand
      else None
  | [] => None
  end.

(** [/([\d,.]+)\s*(k|พัน|หมื่น|แสน)?/i] anchored at the head of [s]:
    groups 1 and 2. *)
Definition sold_at (s : jsstring) : option (jsstring * option jsstring) :=
  match run_at is_count_char s with
  | Some (group, rest) => Some (group, unit_at (dropWhile is_space rest))
  | None => None
  end.

(** [unit === literal], where [unit] may be undefined. *)
Definition unit_is (unit : option jsstring) (literal : jsstring) : bool :=
  match unit with
  | Some u => str_eqb u literal
  | None => false
  end.

Fixpoint sold_loop (selectors : list string) (soldCount : number) : number :=
  match selectors with
  | [] => soldCount
  | selector :: rest =>
      match querySelector doc selector with
      | Some el =>
          match regex_search sold_at (textContent el) with
          | Some (group, matched_unit) =>
              let count := parseFloat (keep not_comma group) in
              let unit := option_map toLowerCase matched_unit in
              let count :=
                if unit_is unit letter_k || unit_is unit thai_thousand
                then mul count (of_Z 1000) else count in
              let count :=
                if unit_is unit thai_ten_thousand
                then mul count (of_Z 10000) else count in
              let count :=
                if unit_is unit thai_hundred_thousand
                then mul count (of_Z 100000) else count in
              let soldCount' := Math_round count in
              if gtb soldCount' (of_Z 0) then soldCount'
              else sold_loop rest soldCount'
          | None => sold_loop rest soldCount
          end
      | None => sold_loop rest soldCount
      end
  end.

Definition extract_soldCount : number := sold_loop soldSelectors (of_Z 0).

(** ** Images and video *)

Definition imageSelectors : list string :=
  [ "div[class*='image-carousel'] img";
    "div[class*='product-image'] img";
    "img[class*='main']";
    "img[src*='shopee']" ]%string.

(** [el.getAttribute('src') || el.getAttribute('data-src')] *)
Definition image_src (el : Element) : option jsstring :=
  or_else (getAttribute el "src") (getAttribute el "data-src").

Definition shopee : jsstring := of_ascii "shopee".
Definition susercontent : jsstring := of_ascii "susercontent".

(** [src && src.includes('shopee') || src?.includes('susercontent')] *)
Definition thumbnail_ok (src : option jsstring) : bool :=
  match src with
  | Some s => (nonempty s && includes shopee s) || includes susercontent s
  | None => false
  end.

Fixpoint thumbnail_loop (selectors : list string) : jsstring :=
  match selectors with
  | [] => []
  | selector :: rest =>
      match querySelector doc selector with
      | Some el =>
          match image_src el with
          | Some s => if thumbnail_ok (Some s) then s else thumbnail_loop rest
          | None => thumbnail_loop rest
          end
      | None => thumbnail_loop rest
      end
  end.

(** [src && (src.includes('shopee') || src.includes('susercontent'))] *)
Definition image_ok (src : option jsstring) : bool :=
  match src with
  | Some s => nonempty s && (includes shopee s || includes susercontent s)
  | None => false
  end.

(** The array [imageUrls] after the [forEach]. *)
Definition extract_imageUrls : list jsstring :=
  flat_map
    (fun img =>
       match image_src img with
       | Some s => if image_ok (Some s) then [s] else []
       | None => []
       end)
    (querySelectorAll doc
       "div[class*='carousel'] img, div[class*='thumbnail'] img").

Definition extract_videoUrl : option jsstring :=
  match querySelector doc "video source, video" with
  | Some videoEl => or_else (getAttribute videoEl "src") None
  | None => None
  end.

(** ** Description, shop, category, shipping *)

Definition descSelectors : list string :=
  [ "div[class*='product-detail']";
    "div[class*='description']";
    "div[class*='QN2lPu']" ]%string.

Fixpoint description_loop (selectors : list string) (description : jsstring)
  : jsstring :=
  match selectors with
  | [] => description
  | selector :: rest =>
      match querySelector doc selector with
      | Some el =>
          let description' := substring0 500 (trim (textContent el)) in
          if nonempty description' then description'
          else description_loop rest description'
      | None => description_loop rest description
      end
  end.

(** [el.textContent?.trim() || ''] for the first element of [selector],
    the empty string when there is none. *)
Definition trimmed_text (selector : string) : jsstring :=
  match querySelector doc selector with
  | Some el => trim (textContent el)
  | None => []
  end.

(** ** The object returned to [extractProductDetails] *)

Definition evaluateProductData : ProductData.t :=
  {| ProductData.itemId := snd extract_ids;
     ProductData.shopId := fst extract_ids;
     ProductData.title := title_loop titleSelectors;
     ProductData.description := description_loop descSelectors [];
     ProductData.thumbnailUrl := thumbnail_loop imageSelectors;
     ProductData.imageUrls := firstn 5 (set_spread extract_imageUrls);
     ProductData.videoUrl := extract_videoUrl;
     ProductData.price := fst extract_prices;
     ProductData.originalPrice := snd extract_prices;
     ProductData.discountPercent := extract_discountPercent;
     ProductData.rating := extract_rating;
     ProductData.reviewCount := extract_reviewCount;
     ProductData.soldCount := extract_soldCount;
     ProductData.shopName :=
       trimmed_text "div[class*='shop-info'] span, a[class*='shop-name']";
     ProductData.category :=
       trimmed_text
         "nav[class*='breadcrumb'] a:nth-child(2), div[class*='category']";
     ProductData.freeShipping :=
       is_some
         (querySelector doc "div[class*='free-shipping'], img[alt*='Free']")
  |}.

End FieldExtraction.

(* ================================================================== *)
(** * Normalisation ([extractProductDetails]) *)
(* ================================================================== *)

Definition THB_TO_KRW : number := of_Z 40.

(** [productData.price || 0] *)
Definition price_or_zero (price : option number) : number :=
  match price with
  | Some n => if truthy n then n else of_Z 0
  | None => of_Z 0
  end.

(** [productData.price ? Math.round(productData.price * THB_TO_KRW) : null] *)
Definition convert_price (price : option number) : option number :=
  match price with
  | Some n => if truthy n then Some (Math_round (mul n THB_TO_KRW)) else None
  | None => None
  end.

(** What the browser answers for a product page: navigation or the in-page
    script may throw; otherwise the script runs on the loaded document.
    [slug_clock] is the value of [Date.now()] inside [createSlug] and
    [crawl_clock] the time value of [new Date()]. *)
Inductive ProductPage : Type :=
| PageFails
| PageLoaded (doc : Document) (slug_clock crawl_clock : Z).

(** The part of [extractProductDetails] after the in-page script. *)
Definition normalize `{Runtime} (productData : ProductData.t)
  (url : jsstring) (slug_clock crawl_clock : Z) : option ShopeeProduct.t :=
  if negb (nonempty (ProductData.title productData))
     || negb (nonempty (ProductData.itemId productData))
  then None
  else
    Some
      {| ShopeeProduct.itemId := ProductData.itemId productData;
         ShopeeProduct.shopId := ProductData.shopId productData;
         ShopeeProduct.title := ProductData.title productData;
         ShopeeProduct.slug :=
           createSlug (ProductData.title productData) slug_clock;
         ShopeeProduct.description := ProductData.description productData;
         ShopeeProduct.thumbnailUrl := ProductData.thumbnailUrl productData;
         ShopeeProduct.imageUrls := ProductData.imageUrls productData;
         ShopeeProduct.videoUrl := ProductData.videoUrl productData;
         ShopeeProduct.price := price_or_zero (ProductData.price productData);
         ShopeeProduct.originalPrice :=
           ProductData.originalPrice productData;
         ShopeeProduct.priceKrw :=
           convert_price (ProductData.price productData);
         ShopeeProduct.currency := of_ascii "THB";
         ShopeeProduct.discountPercent :=
           ProductData.discountPercent productData;
         ShopeeProduct.rating := ProductData.rating productData;
         ShopeeProduct.reviewCount := ProductData.reviewCount productData;
         ShopeeProduct.soldCount := ProductData.soldCount productData;
         ShopeeProduct.category := ProductData.category productData;
         ShopeeProduct.shopName := ProductData.shopName productData;
         ShopeeProduct.shopLocation := None;
         ShopeeProduct.freeShipping := ProductData.freeShipping productData;
         ShopeeProduct.sourceUrl := url;
         ShopeeProduct.crawledAt := crawl_clock |}.

(** [extractProductDetails(page, url)] *)
Definition extractProductDetails `{Runtime} (page : ProductPage)
  (url : jsstring) : option ShopeeProduct.t :=
  match page with
  | PageFails => None
  | PageLoaded doc slug_clock crawl_clock =>
      normalize (evaluateProductData doc) url slug_clock crawl_clock
  end.

(* ================================================================== *)
(** * The catalog writer ([saveToSupabase]) *)
(* ================================================================== *)

(** The answer of the store to
    [from('products').insert(productInsert).select().single()]: the row, an
    [error] object with its message, or a thrown exception. *)
Inductive InsertResult : Type :=
| Inserted
| Rejected (message : jsstring)
| InsertThrows.

(** The catalog store: some state [DB], and what an insert does to it. *)
Class CatalogStore (DB : Type) : Type := {
  insert : DB -> ProductInsert.t -> DB * InsertResult
}.

(** [n || null] and [n || 0] *)
Definition number_or_null (n : number) : option number :=
  if truthy n then Some n else None.

Definition number_or_zero (n : number) : number :=
  if truthy n then n else of_Z 0.

(** The object [productInsert] built by [saveToSupabase]. *)
Definition productInsert (product : ShopeeProduct.t) : ProductInsert.t :=
  {| ProductInsert.title := ShopeeProduct.title product;
     ProductInsert.slug := ShopeeProduct.slug product;
     ProductInsert.description := or_null (ShopeeProduct.description product);
     ProductInsert.thumbnail_url :=
       or_null (ShopeeProduct.thumbnailUrl product);
     ProductInsert.video_url := ShopeeProduct.videoUrl product;
     ProductInsert.original_price := ShopeeProduct.price product;
     ProductInsert.currency := of_ascii "THB";
     ProductInsert.price_krw := ShopeeProduct.priceKrw product;
     ProductInsert.discount_rate := ShopeeProduct.discountPercent product;
     ProductInsert.source_platform := of_ascii "shopee";
     ProductInsert.source_url := ShopeeProduct.sourceUrl product;
     ProductInsert.external_rating :=
       number_or_null (ShopeeProduct.rating product);
     ProductInsert.external_review_count :=
       number_or_zero (ShopeeProduct.reviewCount product);
     ProductInsert.purchase_count :=
       number_or_zero (ShopeeProduct.soldCount product);
     ProductInsert.tags :=
       filter nonempty
         [ ShopeeProduct.category product;
           ShopeeProduct.shopName product;
           of_ascii "shopee-thailand" ];
     ProductInsert.is_featured :=
       geb (ShopeeProduct.rating product) (Num 4.5%Q)
       && geb (ShopeeProduct.soldCount product) (of_Z 1000);
     ProductInsert.is_active := true;
     ProductInsert.category_id := None |}.

(** [saveToSupabase(supabase, product)]: the store after the call and the
    boolean returned. *)
Definition saveToSupabase {DB} `{CatalogStore DB} (supabase : DB)
  (product : ShopeeProduct.t) : DB * bool :=
  match insert supabase (productInsert product) with
  | (supabase', Inserted) => (supabase', true)
  | (supabase', Rejected _) => (supabase', false)
  | (supabase', InsertThrows) => (supabase', false)
  end.

(* ================================================================== *)
(** * The main loop *)
(* ================================================================== *)

(** The web as one run sees it: the listing pages and the product pages. *)
Record World : Type := {
  listing : jsstring -> Listing;
  product_page : jsstring -> ProductPage
}.

Section Main.

Context `{Runtime}.
Context {DB : Type} `{CatalogStore DB}.
Variable world : World.

(** The body of the [for] loop of [main] for one URL: the store and
    [successCount] after it. *)
Definition crawlItem (supabase : DB) (url : jsstring) (successCount : nat)
  : DB * nat :=
  match extractProductDetails (product_page world url) url with
  | Some product =>
      let (supabase', saved) := saveToSupabase supabase product in
      (supabase', if saved then S successCount else successCount)
  | None => (supabase, successCount)
  end.

(** The [for] loop of [main] over the URLs from index [i] on: the store,
    the final value of [i] and the final [successCount]. *)
Fixpoint crawlLoop (supabase : DB) (urls : list jsstring)
  (i successCount : nat) : DB * (nat * nat) :=
  match urls with
  | [] => (supabase, (i, successCount))
  | url :: rest =>
      let (supabase', successCount') :=
        crawlItem supabase url successCount in
      crawlLoop supabase' rest (S i) successCount'
  end.

(** How a run ends: with the warning that no URL was collected, or with
    the summary line giving [productUrls.length] and [successCount]. *)
Inductive RunResult : Type :=
| NothingCollected
| Summary (total successCount : nat).

(** [main()], past the start-up of the store client and the browser. *)
Definition main (supabase : DB) (maxProducts : Z) : DB * RunResult :=
  let productUrls := getProductUrls (listing world) maxProducts in
  match productUrls with
  | [] => (supabase, NothingCollected)
  | _ :: _ =>
      let '(supabase', (_, successCount)) :=
        crawlLoop supabase productUrls 0 0 in
      (supabase', Summary (length productUrls) successCount)
  end.

End Main.

(* ================================================================== *)
(** * Time in a run *)
(* ================================================================== *)

(** How long the steps of one iteration of the loop of [main] take on a
    page that loads, in milliseconds of the clock [Date.now()] reads.
    The clock is taken to run forward: no step takes a negative time, and
    the timer [extractProductDetails] awaits before it runs the in-page
    script, set to [3000 + Math.random() * 2000], takes at least the 3000
    ms; [settle_extra] is what it takes beyond them. *)
Record Pace : Type := {
  opening : N;
  settle_extra : N;
  scripting : N;
  stamping : N;
  closing : N
}.

(** A product page with the time it takes: the page cannot be read
    (setting up the tab, the navigation or the script throws) and the
    iteration is over after [elapsed]; or it loads [doc] at the pace
    given: [opening] for the tab and the navigation, the timer,
    [scripting] up to the call of [createSlug], [stamping] from there to
    [new Date()], [closing] for the rest of the iteration with the delay
    before the next one. *)
Inductive PacedPage : Type :=
| Unreadable (elapsed : N)
| Readable (doc : Document) (pace : Pace).

(** The value [Date.now()] returns inside [createSlug], in an iteration
    that starts at [now]. *)
Definition slug_time (now : Z) (pace : Pace) : Z :=
  (now + Z.of_N (opening pace) + 3000 + Z.of_N (settle_extra pace)
   + Z.of_N (scripting pace))%Z.

(** The reading of the clock when the next iteration starts. *)
Definition iteration_end (now : Z) (page : PacedPage) : Z :=
  match page with
  | Unreadable elapsed => (now + Z.of_N elapsed)%Z
  | Readable _ pace =>
      (slug_time now pace + Z.of_N (stamping pace) + Z.of_N (closing pace))%Z
  end.

(** What [extractProductDetails] is given in an iteration that starts at
    [now]. *)
Definition page_seen (now : Z) (page : PacedPage) : ProductPage :=
  match page with
  | Unreadable _ => PageFails
  | Readable doc pace =>
      PageLoaded doc (slug_time now pace)
        (slug_time now pace + Z.of_N (stamping pace))%Z
  end.

(** The page the loop of [main] sees at [url] when it goes through [urls]
    in order from the clock reading [now]; a URL the loop does not reach
    has no page. *)
Fixpoint page_in_run (web : jsstring -> PacedPage) (urls : list jsstring)
  (now : Z) (url : jsstring) : ProductPage :=
  match urls with
  | [] => PageFails
  | first :: rest =>
      if str_eqb first url then page_seen now (web first)
      else page_in_run web rest (iteration_end now (web first)) url
  end.

(** The world of one run of [main]: the listing pages, and the product
    pages as the loop comes to them, the first iteration starting when
    the clock reads [start]. *)
Definition paced_world (browse : jsstring -> Listing)
  (web : jsstring -> PacedPage) (start : Z) (maxProducts : Z) : World :=
  {| listing := browse;
     product_page :=
       page_in_run web (getProductUrls browse maxProducts) start |}.

(* ================================================================== *)
(** * A store and some pages to run the crawler on *)
(* ================================================================== *)

(** A store whose only constraint is that slugs are unique: the rows
    inserted so far, in order.  An insert whose slug is already present is
    rejected with an error message and leaves the rows as they are. *)
Module UniqueSlugStore.

Definition DB : Type := list ProductInsert.t.

Definition has_slug (rows : DB) (slug : jsstring) : bool :=
  existsb (fun row => str_eqb (ProductInsert.slug row) slug) rows.

Definition duplicate_key : jsstring :=
  of_ascii "duplicate key value violates unique constraint".

Definition insert_row (rows : DB) (row : ProductInsert.t)
  : DB * InsertResult :=
  if has_slug rows (ProductInsert.slug row)
  then (rows, Rejected duplicate_key)
  else (rows ++ [row], Inserted).

#[export] Instance store : CatalogStore DB := {| insert := insert_row |}.

End UniqueSlugStore.

Module Examples.

(** An element with the given text and no attributes. *)
Definition text_element (text : string) : Element :=
  {| textContent := of_ascii text; getAttribute := fun _ => None |}.

Definition product_url : jsstring :=
  of_ascii "https://shopee.co.th/Phone-Case-i.1234.56789".

(** A product page with a title and whatever [content] says the selectors
    of the price, rating and count fields find. *)
Definition product_document (content : string -> list Element) : Document :=
  {| location_href := product_url;
     location_pathname := of_ascii "/Phone-Case-i.1234.56789";
     querySelectorAll := fun selector =>
       if String.eqb selector "h1" then [text_element "Phone Case"]
       else content selector |}.

(** The price block shows 250 struck through and 100. *)
Definition discounted_document : Document :=
  product_document (fun selector =>
    if String.eqb selector "div[class*='pqTWkA']"
    then [text_element "฿250"; text_element "฿100"]
    else []).

(** The only price on the page is zero. *)
Definition free_document : Document :=
  product_document (fun selector =>
    if String.eqb selector "div[class*='price']"
    then [text_element "฿0"]
    else []).

(** The price block shows 5, then 0, then 7. *)
Definition zero_among_prices_document : Document :=
  product_document (fun selector =>
    if String.eqb selector "div[class*='pqTWkA']"
    then [text_element "5"; text_element "0"; text_element "7"]
    else []).

(** The first element the rating selectors find reads 10. *)
Definition rating_ten_document : Document :=
  product_document (fun selector =>
    if String.eqb selector "div[class*='rating'] span"
    then [text_element "10"]
    else []).

(** A page with a price block of 250 and 100, a discount badge, 1.5k
    ratings and 2.5k sold. *)
Definition counted_document : Document :=
  product_document (fun selector =>
    if String.eqb selector "div[class*='pqTWkA']"
    then [text_element "฿250"; text_element "฿100"]
    else if String.eqb selector
              "div[class*='percent'], span[class*='discount']"
    then [text_element "-60% off"]
    else if String.eqb selector "span[class*='review']"
    then [text_element "1.5k ratings"]
    else if String.eqb selector "div[class*='sold']"
    then [text_element "2.5k sold"]
    else []).

(** A page without any heading: the title comes out empty, although the
    price is there. *)
Definition untitled_document : Document :=
  {| location_href := product_url;
     location_pathname := of_ascii "/Phone-Case-i.1234.56789";
     querySelectorAll := fun selector =>
       if String.eqb selector "div[class*='pqTWkA']"
       then [text_element "฿100"]
       else [] |}.

(** A product rated 4.8 with 1234 reviews and a sold count of 0. *)
Definition well_reviewed_unsold : ShopeeProduct.t :=
  {| ShopeeProduct.itemId := of_ascii "56789";
     ShopeeProduct.shopId := of_ascii "1234";
     ShopeeProduct.title := of_ascii "Wireless Earbuds X1";
     ShopeeProduct.slug := of_ascii "wireless-earbuds-x1-1700000000000";
     ShopeeProduct.description := [];
     ShopeeProduct.thumbnailUrl := [];
     ShopeeProduct.imageUrls := [];
     ShopeeProduct.videoUrl := None;
     ShopeeProduct.price := Num 19.99%Q;
     ShopeeProduct.originalPrice := None;
     ShopeeProduct.priceKrw := Some (of_Z 800);
     ShopeeProduct.currency := of_ascii "THB";
     ShopeeProduct.discountPercent := None;
     ShopeeProduct.rating := Num 4.8%Q;
     ShopeeProduct.reviewCount := of_Z 1234;
     ShopeeProduct.soldCount := of_Z 0;
     ShopeeProduct.category := [];
     ShopeeProduct.shopName := [];
     ShopeeProduct.shopLocation := None;
     ShopeeProduct.freeShipping := false;
     ShopeeProduct.sourceUrl := product_url;
     ShopeeProduct.crawledAt := 1700000000000%Z |}.

(** The same product with a sold count of 2500. *)
Definition well_sold : ShopeeProduct.t :=
  {| ShopeeProduct.itemId := of_ascii "56789";
     ShopeeProduct.shopId := of_ascii "1234";
     ShopeeProduct.title := of_ascii "Wireless Earbuds X1";
     ShopeeProduct.slug := of_ascii "wireless-earbuds-x1-1700000000000";
     ShopeeProduct.description := [];
     ShopeeProduct.thumbnailUrl := [];
     ShopeeProduct.imageUrls := [];
     ShopeeProduct.videoUrl := None;
     ShopeeProduct.price := Num 19.99%Q;
     ShopeeProduct.originalPrice := None;
     ShopeeProduct.priceKrw := Some (of_Z 800);
     ShopeeProduct.currency := of_ascii "THB";
     ShopeeProduct.discountPercent := None;
     ShopeeProduct.rating := Num 4.8%Q;
     ShopeeProduct.reviewCount := of_Z 1234;
     ShopeeProduct.soldCount := of_Z 2500;
     ShopeeProduct.category := [];
     ShopeeProduct.shopName := [];
     ShopeeProduct.shopLocation := None;
     ShopeeProduct.freeShipping := false;
     ShopeeProduct.sourceUrl := product_url;
     ShopeeProduct.crawledAt := 1700000000000%Z |}.

(** A web with one listing page that links the example product twice,
    and the discounted page behind that link. *)
Definition one_product_world : World :=
  {| listing := fun entry =>
       if str_eqb entry
            (of_ascii "https://shopee.co.th/search?keyword=electronics")
       then Anchors [ of_ascii "/Phone-Case-i.1234.56789";
                      of_ascii "/about";
                      of_ascii "/Phone-Case-i.1234.56789" ]
       else NavigationFails;
     product_page := fun _ =>
       PageLoaded discounted_document 1700000000000 1700000000001 |}.

(** Two listing pages with three distinct product links between them;
    the other entry points cannot be reached. *)
Definition busy_listing (entry : jsstring) : Listing :=
  if str_eqb entry
       (of_ascii "https://shopee.co.th/search?keyword=electronics")
  then Anchors [ of_ascii "/Phone-Case-i.1234.56789";
                 of_ascii "https://shopee.co.th/Cable-i.77.88";
                 of_ascii "/Phone-Case-i.1234.56789" ]
  else if str_eqb entry
            (of_ascii "https://shopee.co.th/search?keyword=phone")
  then Anchors [ of_ascii "/Cable-i.77.88";
                 of_ascii "/Charger-i.5.6" ]
  else NavigationFails.

(** The same two listing pages, with the entry points that fail in
    [busy_listing] serving a page without product links instead, and an
    extra anchor that is no product link on the first page. *)
Definition busy_listing_without_failures (entry : jsstring) : Listing :=
  if str_eqb entry
       (of_ascii "https://shopee.co.th/search?keyword=electronics")
  then Anchors [ of_ascii "/Phone-Case-i.1234.56789";
                 of_ascii "/help";
                 of_ascii "https://shopee.co.th/Cable-i.77.88";
                 of_ascii "/Phone-Case-i.1234.56789" ]
  else if str_eqb entry
            (of_ascii "https://shopee.co.th/search?keyword=phone")
  then Anchors [ of_ascii "/Cable-i.77.88";
                 of_ascii "/Charger-i.5.6" ]
  else Anchors [ of_ascii "/about" ].

(** The product the crawler builds from the discounted page. *)
Definition discounted_product : option ShopeeProduct.t :=
  @extractProductDetails ascii_runtime
    (product_page one_product_world product_url) product_url.

(** The unique-slug store after a first run over [one_product_world]
    with a frozen clock: the slug of the example product is taken. *)
Definition store_after_first_run : UniqueSlugStore.DB :=
  match discounted_product with
  | Some product => [productInsert product]
  | None => []
  end.

(** Every product page loads the discounted page, taking 1.2 s to open,
    3.7 s on the timer and 5 s for the rest of the iteration. *)
Definition steady_web (url : jsstring) : PacedPage :=
  Readable discounted_document
    {| opening := 1200; settle_extra := 700; scripting := 40;
       stamping := 0; closing := 5000 |}.

(** One run over the busy listing and the steady web, started when the
    clock reads 1700000000000. *)
Definition steady_run : World :=
  paced_world busy_listing steady_web 1700000000000 10.

End Examples.

(* ================================================================== *)
(** * Vocabulary of the properties *)
(* ================================================================== *)

(** The characters a slug may contain: lowercase latin letters, digits,
    Hangul syllables, the Thai block of the source's range, and the hyphen. *)
Definition slug_char (c : char16) : bool :=
  is_lower_latin c || is_digit c || is_hangul c || is_thai c
  || (c =? hyphen).

(** [n] is a number, not NaN, and at least [q]. *)
Definition at_least (n : number) (q : Q) : Prop :=
  match n with
  | Num x => (q <= x)%Q
  | NaN => False
  end.

(** [n] is a number, not NaN, and at most [q]. *)
Definition at_most (n : number) (q : Q) : Prop :=
  match n with
  | Num x => (x <= q)%Q
  | NaN => False
  end.

(** Both are numbers, not NaN, and [a] is strictly below [b]. *)
Definition less_than (a b : number) : Prop :=
  match a, b with
  | Num x, Num y => (x < y)%Q
  | _, _ => False
  end.

(** The number zero. *)
Definition is_zero (n : number) : bool :=
  match n with
  | Num q => Qeq_bool q 0%Q
  | NaN => false
  end.

(** What the price loop maintains on the pair [(price, originalPrice)]
    as long as no price on the page is zero: an original price comes with
    a price that is a number other than zero and strictly below it. *)
Definition price_below_original (st : option number * option number) : Prop :=
  forall o,
    snd st = Some o ->
    exists p, fst st = Some p /\ truthy p = true /\ less_than p o.

(** The product links among the anchors of an entry point's page, as the
    page lists them: what the entry point yields. *)
Definition matching_urls (browse : jsstring -> Listing) (entry : EntryPoint)
  : list jsstring :=
  match browse (url entry) with
  | Anchors hrefs => links hrefs
  | _ => []
  end.

(** The array [productUrls] after the loop body of [getProductUrls] ran
    for each of [entries] in turn, starting from the empty array. *)
Definition running_total (browse : jsstring -> Listing)
  (entries : list EntryPoint) : list jsstring :=
  fold_left (visit browse) entries [].

(** A rating the loop of [extract_rating] accepts: a number from 1 to 5. *)
Definition rating_valid (n : number) : Prop := at_least n 1 /\ at_most n 5.

(** [a <= b] for two numbers, neither of them NaN. *)
Definition at_most_num (a b : number) : Prop :=
  match a, b with
  | Num x, Num y => (x <= y)%Q
  | _, _ => False
  end.

(** A number other than zero, not NaN. *)
Definition nonzero_number (n : number) : Prop :=
  match n with
  | NaN => False
  | Num q => ~ (q == 0)%Q
  end.

(** The values of the elements of [els] whose text matches the price
    pattern, in document order. *)
Definition matched_values (els : list Element) : list number :=
  flat_map
    (fun el =>
       match price_value (textContent el) with
       | Some value => [value]
       | None => []
       end)
    els.

(** The selector finds no element, or one whose text is blank. *)
Definition blank_at (doc : Document) (selector : string) : Prop :=
  match querySelector doc selector with
  | Some el => trim (textContent el) = []
  | None => True
  end.

(** The string contains ['shopee'] or ['susercontent']. *)
Definition shopee_hosted (s : jsstring) : Prop :=
  includes shopee s = true \/ includes susercontent s = true.

(** The value the rating loop reads at one selector, when the selector
    finds an element whose text has digits or dots in it. *)
Definition rating_candidate (doc : Document) (selector : string)
  : option number :=
  match querySelector doc selector with
  | Some el =>
      match regex_search (run_at is_digit_or_dot) (textContent el) with
      | Some (group, _) => Some (parseFloat group)
      | None => None
      end
  | None => None
  end.

(** Neither the first nor the last character is white space. *)
Definition trimmed (s : jsstring) : Prop :=
  (forall c rest, s = c :: rest -> is_space c = false)
  /\ (forall front c, s = front ++ [c] -> is_space c = false).

(** NaN, or a number from 0 up to, not including, [bound]. *)
Definition below (n : number) (bound : Z) : Prop :=
  match n with
  | NaN => True
  | Num q => (0 <= q)%Q /\ (q < inject_Z bound)%Q
  end.

(** An integer from 0 up to, not including, 10^300: far inside the range
    of the doubles, whose largest is above 10^308. *)
Definition ordinary_integer (n : number) : Prop :=
  exists z, (0 <= z < 10 ^ 300)%Z /\ n = of_Z z.

(** NaN, or such an integer. *)
Definition ordinary_count (n : number) : Prop :=
  n = NaN \/ ordinary_integer n.

(** Every element the selectors find has a text of at most 256 code
    units. *)
Definition short_texts (doc : Document) (selectors : list string) : Prop :=
  forall selector el,
    In selector selectors ->
    In el (querySelectorAll doc selector) ->
    (length (textContent el) <= 256)%nat.

(* ================================================================== *)
(** * The crawler at work on the example pages *)
(* ================================================================== *)

Example createSlug_example :
  @createSlug ascii_runtime (of_ascii "Phone  Case (NEW) 2024!") 1700000000000
  = of_ascii "phone-case-new-2024-1700000000000".
Proof. reflexivity. Qed.

Example getProductUrls_example :
  getProductUrls Examples.busy_listing 2
  = [ of_ascii "https://shopee.co.th/Phone-Case-i.1234.56789";
      of_ascii "https://shopee.co.th/Cable-i.77.88" ]
  /\ map name (visitedEntries Examples.busy_listing 2)
     = [ "검색: 전자기기"%string ]
  /\ length (getProductUrls Examples.busy_listing 10) = 3%nat
  /\ length (visitedEntries Examples.busy_listing 10) = 5%nat.
Proof. repeat split; reflexivity. Qed.

Example extract_prices_example :
  extract_prices Examples.discounted_document
  = (Some (Num 100%Q), Some (Num 250%Q)).
Proof. reflexivity. Qed.

Example is_featured_example :
  ProductInsert.is_featured (productInsert Examples.well_sold) = true.
Proof. reflexivity. Qed.

Example main_example :
  @main ascii_runtime _ UniqueSlugStore.store Examples.one_product_world
    [] 10
  = (Examples.store_after_first_run, Summary 1 1).
Proof. vm_compute. reflexivity. Qed.

(* ================================================================== *)
(** * Properties of the slug generator *)
(* ================================================================== *)

Section SlugProperties.

Context `{Runtime}.

Lemma uint_units_inj (d1 d2 : Decimal.uint) :
  uint_units d1 = uint_units d2 -> d1 = d2.
Proof.
  revert d2.
  induction d1; destruct d2; simpl; intros E;
    try discriminate E; try reflexivity;
    injection E as E; f_equal; auto.
Qed.

Lemma uint_units_not_hyphen (d1 d2 : Decimal.uint) :
  uint_units d1 <> hyphen :: uint_units d2.
Proof.
  destruct d1; simpl; intros E; discriminate E.
Qed.

Lemma int_to_string_inj (z1 z2 : Z) :
  int_to_string z1 = int_to_string z2 -> z1 = z2.
Proof.
  unfold int_to_string. intros E.
  rewrite <- (DecimalZ.of_to z1), <- (DecimalZ.of_to z2).
  destruct (Z.to_int z1) as [d1 | d1], (Z.to_int z2) as [d2 | d2].
  - apply uint_units_inj in E. now subst.
  - now apply uint_units_not_hyphen in E.
  - symmetry in E. now apply uint_units_not_hyphen in E.
  - injection E as E. apply uint_units_inj in E. now subst.
Qed.

Lemma digit_is_slug_char (c : char16) :
  is_digit c = true -> slug_char c = true.
Proof.
  unfold slug_char. intros ->. now rewrite orb_true_r.
Qed.

Lemma hyphen_is_slug_char : slug_char hyphen = true.
Proof. reflexivity. Qed.

(** A kept character that is not white space is a slug character. *)
Lemma kept_not_space (c : char16) :
  slug_keeps c = true -> is_space c = false -> slug_char c = true.
Proof.
  unfold slug_keeps, slug_char. intros K S.
  rewrite S, orb_false_r in K. exact K.
Qed.

Create HintDb slug discriminated.
#[local] Hint Resolve digit_is_slug_char hyphen_is_slug_char kept_not_space
  : slug.
#[local] Hint Constructors Forall : slug.

Lemma uint_units_chars (d : Decimal.uint) :
  Forall (fun c => slug_char c = true) (uint_units d).
Proof.
  induction d; simpl; auto 6 with slug.
Qed.

Lemma discriminator_chars (now : Z) :
  Forall (fun c => slug_char c = true) (discriminator now).
Proof.
  pose proof uint_units_chars.
  unfold discriminator, int_to_string.
  destruct (Z.to_int now); auto with slug.
Qed.

Lemma replace_space_runs_chars (s : jsstring) :
  Forall (fun c => slug_keeps c = true) s ->
  forall in_run,
    Forall (fun c => slug_char c = true) (replace_space_runs in_run s).
Proof.
  induction 1 as [| c s Hc Hs IH]; intros in_run; simpl;
    [constructor |].
  destruct (is_space c) eqn:S, in_run; auto with slug.
Qed.

Lemma keep_chars (p : char16 -> bool) (s : jsstring) :
  Forall (fun c => p c = true) (keep p s).
Proof.
  unfold keep. apply Forall_forall. intros c Hc.
  now apply filter_In in Hc.
Qed.

Lemma firstn_Forall {A} (P : A -> Prop) (n : nat) (l : list A) :
  Forall P l -> Forall P (firstn n l).
Proof.
  intros F. revert n.
  induction F; intros [| n]; simpl; constructor; auto.
Qed.

(** C4. Whatever the title, every character of the slug is a lowercase
    latin letter, a digit, a Hangul or Thai character of the allow-list,
    or a hyphen; and the slug is at most 80 characters longer than the
    discriminator [createSlug] appends. *)
Theorem createSlug_charset_and_length (title : jsstring) (now : Z) :
  Forall (fun c => slug_char c = true) (createSlug title now)
  /\ (length (createSlug title now) <= 80 + length (discriminator now))%nat.
Proof.
  unfold createSlug, substring0. split.
  - apply Forall_app. split.
    + apply firstn_Forall, replace_space_runs_chars, keep_chars.
    + apply discriminator_chars.
  - rewrite length_app.
    apply Nat.add_le_mono_r, firstn_le_length.
Qed.

(** Two invocations on the same title return the same slug exactly when
    they read the same value from the clock. *)
Theorem createSlug_distinct_iff_clock (title : jsstring) (t1 t2 : Z) :
  createSlug title t1 <> createSlug title t2 <-> t1 <> t2.
Proof.
  unfold createSlug, discriminator. split.
  - intros D E. apply D. now subst.
  - intros D E. apply D.
    apply app_inv_head in E. injection E as E.
    now apply int_to_string_inj.
Qed.

End SlugProperties.

(* ================================================================== *)
(** * Properties of the normalised record *)
(* ================================================================== *)

Lemma geb_at_least (n : number) (q : Q) :
  geb n (Num q) = true <-> at_least n q.
Proof.
  destruct n as [| x]; simpl.
  - split; [discriminate | contradiction].
  - apply Qle_bool_iff.
Qed.

Lemma ltb_less_than (a b : number) :
  ltb a b = true <-> less_than a b.
Proof.
  destruct a as [| x], b as [| y]; simpl;
    try (split; [discriminate | contradiction]).
  rewrite Qlt_alt.
  destruct (x ?= y)%Q; split; congruence.
Qed.

Lemma truthy_not_zero (q : Q) :
  truthy (Num q) = true <-> ~ (q == 0)%Q.
Proof.
  simpl. rewrite negb_true_iff.
  split.
  - intros E. now apply Qeq_bool_neq.
  - intros N. destruct (Qeq_bool q 0) eqn:E; [| reflexivity].
    now apply Qeq_bool_eq in E.
Qed.

(** C1. The record handed to the store is featured exactly when
    the rating is at least 4.5 and the sold count is at least 1000. *)
Theorem is_featured_iff_rating_and_sold (product : ShopeeProduct.t) :
  ProductInsert.is_featured (productInsert product) = true
  <-> at_least (ShopeeProduct.rating product) 4.5
      /\ at_least (ShopeeProduct.soldCount product) 1000.
Proof.
  unfold productInsert. cbn [ProductInsert.is_featured].
  change (of_Z 1000) with (Num 1000%Q).
  now rewrite andb_true_iff, !geb_at_least.
Qed.

(** C1, with the review count for the sold count: a product rated 4.8
    with 1234 reviews and nothing sold is stored with
    [is_featured = false]. *)
Lemma is_featured_ignores_review_count :
  ~ (ProductInsert.is_featured (productInsert Examples.well_reviewed_unsold)
     = true
     <-> at_least (ShopeeProduct.rating Examples.well_reviewed_unsold) 4.5
         /\ at_least
              (ShopeeProduct.reviewCount Examples.well_reviewed_unsold) 1000).
Proof.
  intros [_ Featured].
  assert (false = true) as Absurd; [| discriminate Absurd].
  apply Featured. split; simpl; unfold Qle; simpl; lia.
Qed.

Section NormalizeProperties.

Context `{Runtime}.

Lemma nonempty_false (s : jsstring) : nonempty s = false <-> s = [].
Proof.
  destruct s; simpl; split; congruence.
Qed.

(** C7, first half: [normalize] discards the data exactly when the title
    or the item id is empty. *)
Lemma normalize_none_iff (productData : ProductData.t) (url : jsstring)
  (slug_clock crawl_clock : Z) :
  normalize productData url slug_clock crawl_clock = None
  <-> ProductData.title productData = []
      \/ ProductData.itemId productData = [].
Proof.
  unfold normalize.
  rewrite <- !nonempty_false.
  destruct (nonempty (ProductData.title productData)),
    (nonempty (ProductData.itemId productData)); simpl;
    split; intros E; try discriminate E; auto;
    destruct E as [E | E]; discriminate E.
Qed.

(** C2. In the record built from the page data, the converted
    price is absent when the source price is absent, zero or NaN, and is
    the source price times 40, rounded, when the source price is a number
    other than zero. *)
Theorem priceKrw_of_source_price (productData : ProductData.t)
  (url : jsstring) (slug_clock crawl_clock : Z) (product : ShopeeProduct.t) :
  normalize productData url slug_clock crawl_clock = Some product ->
  (ProductData.price productData = None ->
   ShopeeProduct.priceKrw product = None)
  /\ (ProductData.price productData = Some NaN ->
      ShopeeProduct.priceKrw product = None)
  /\ (forall q, ProductData.price productData = Some (Num q) ->
                (q == 0)%Q -> ShopeeProduct.priceKrw product = None)
  /\ (forall q, ProductData.price productData = Some (Num q) ->
                ~ (q == 0)%Q ->
                ShopeeProduct.priceKrw product
                = Some (of_Z (Qfloor (q * 40 + (1 # 2))%Q))).
Proof.
  unfold normalize.
  destruct (negb (nonempty (ProductData.title productData))
            || negb (nonempty (ProductData.itemId productData)));
    [discriminate |].
  intros E. injection E as <-. simpl.
  repeat split.
  - now intros ->.
  - now intros ->.
  - intros q -> Z0. unfold convert_price.
    apply Qeq_eq_bool in Z0. simpl. now rewrite Z0.
  - intros q -> NZ. unfold convert_price.
    apply truthy_not_zero in NZ. now rewrite NZ.
Qed.

End NormalizeProperties.

(** A page whose only price is 250 struck through and 100: the record has
    the converted price 4000. *)
Lemma priceKrw_of_source_price_witness :
  exists product,
    Examples.discounted_product = Some product
    /\ ShopeeProduct.priceKrw product = Some (of_Z 4000).
Proof.
  destruct Examples.discounted_product as [product |] eqn:E;
    [| discriminate E].
  exists product. split; [reflexivity |].
  unfold Examples.discounted_product, extractProductDetails in E.
  simpl product_page in E.
  destruct (@priceKrw_of_source_price ascii_runtime _ _ _ _ _ E)
    as (_ & _ & _ & Rounded).
  apply (Rounded 100%Q); [reflexivity | easy].
Defined.

(** C2, at a price of zero: on a page whose price reads zero, the source
    price is extracted as the number 0 and the converted price of the
    record is absent, not 0. *)
Lemma zero_price_has_no_converted_price :
  ProductData.price (@evaluateProductData ascii_runtime Examples.free_document)
  = Some (Num 0%Q)
  /\ ~ (forall product,
          @extractProductDetails ascii_runtime
            (PageLoaded Examples.free_document 1700000000000 1700000000001)
            Examples.product_url = Some product ->
          ShopeeProduct.priceKrw product = Some (of_Z 0)).
Proof.
  split; [reflexivity |].
  intros Always.
  destruct (@extractProductDetails ascii_runtime
              (PageLoaded Examples.free_document 1700000000000 1700000000001)
              Examples.product_url) as [product |] eqn:E;
    [| vm_compute in E; discriminate E].
  specialize (Always product eq_refl).
  vm_compute in E. injection E as <-.
  discriminate Always.
Qed.

(* ================================================================== *)
(** * Properties of the catalog writer and the main loop *)
(* ================================================================== *)

Section RunProperties.

Context `{Runtime}.
Context {DB : Type} `{CatalogStore DB}.
Variable world : World.

Lemma saveToSupabase_rejected (supabase supabase' : DB)
  (product : ShopeeProduct.t) (message : jsstring) :
  insert supabase (productInsert product) = (supabase', Rejected message) ->
  saveToSupabase supabase product = (supabase', false).
Proof.
  unfold saveToSupabase. now intros ->.
Qed.

(** The loop runs its body once per URL, whatever the pages and the store
    answer: it ends with [i] advanced by the number of URLs. *)
Lemma crawlLoop_attempts_all (urls : list jsstring) :
  forall (supabase : DB) (i successCount : nat),
    fst (snd (crawlLoop world supabase urls i successCount))
    = (i + length urls)%nat.
Proof.
  induction urls as [| url rest IH]; intros supabase i successCount; simpl.
  - lia.
  - destruct (crawlItem world supabase url successCount) as [supabase' n'].
    rewrite IH. lia.
Qed.

Lemma crawlItem_counts_at_most_one (supabase : DB) (url : jsstring)
  (successCount : nat) :
  (successCount <= snd (crawlItem world supabase url successCount)
   <= S successCount)%nat.
Proof.
  unfold crawlItem.
  destruct (extractProductDetails (product_page world url) url);
    [| simpl; lia].
  destruct (saveToSupabase _ _) as [supabase' [|]]; simpl; lia.
Qed.

Lemma crawlLoop_success_bounds (urls : list jsstring) :
  forall (supabase : DB) (i successCount : nat),
    (successCount
     <= snd (snd (crawlLoop world supabase urls i successCount))
     <= successCount + length urls)%nat.
Proof.
  induction urls as [| url rest IH]; intros supabase i successCount; simpl.
  - lia.
  - pose proof (crawlItem_counts_at_most_one supabase url successCount) as B.
    destruct (crawlItem world supabase url successCount) as [supabase' n'].
    simpl in B. specialize (IH supabase' (S i) n'). lia.
Qed.

(** C7. The data of a page is discarded exactly when its title or its item
    id is empty, whatever its other fields hold; and the loop body then
    leaves the store and the success counter as they were. *)
Theorem discarded_iff_title_or_id_empty (doc : Document) (url : jsstring)
  (slug_clock crawl_clock : Z) :
  let productData := evaluateProductData doc in
  let page := PageLoaded doc slug_clock crawl_clock in
  (extractProductDetails page url = None
   <-> ProductData.title productData = []
       \/ ProductData.itemId productData = [])
  /\ (product_page world url = page ->
      ProductData.title productData = []
      \/ ProductData.itemId productData = [] ->
      forall (supabase : DB) (successCount : nat),
        crawlItem world supabase url successCount = (supabase, successCount)).
Proof.
  intros productData page. split.
  - apply normalize_none_iff.
  - intros Page Empty supabase successCount.
    unfold crawlItem. rewrite Page.
    unfold page, extractProductDetails.
    apply (normalize_none_iff (evaluateProductData doc) url
             slug_clock crawl_clock) in Empty.
    now rewrite Empty.
Qed.

(** C8. When the store rejects the insert of a product, [saveToSupabase]
    returns false; the loop goes on with the next URL with the success
    counter unchanged and the index advanced; and the loop ends having
    advanced the index once per URL, with the rejected product not among
    the successes. *)
Theorem rejected_insert_is_counted_and_survived
  (supabase supabase' : DB) (url : jsstring) (rest : list jsstring)
  (i successCount : nat) (product : ShopeeProduct.t) (message : jsstring) :
  extractProductDetails (product_page world url) url = Some product ->
  insert supabase (productInsert product) = (supabase', Rejected message) ->
  saveToSupabase supabase product = (supabase', false)
  /\ crawlLoop world supabase (url :: rest) i successCount
     = crawlLoop world supabase' rest (S i) successCount
  /\ fst (snd (crawlLoop world supabase (url :: rest) i successCount))
     = (i + S (length rest))%nat
  /\ (snd (snd (crawlLoop world supabase (url :: rest) i successCount))
      <= successCount + length rest)%nat.
Proof.
  intros Extracted Insert.
  pose proof (saveToSupabase_rejected _ _ Insert) as Saved.
  assert (crawlLoop world supabase (url :: rest) i successCount
          = crawlLoop world supabase' rest (S i) successCount) as Step.
  { simpl. unfold crawlItem. now rewrite Extracted, Saved. }
  repeat split.
  - exact Saved.
  - exact Step.
  - rewrite Step, crawlLoop_attempts_all. lia.
  - rewrite Step. apply crawlLoop_success_bounds.
Qed.

End RunProperties.

(** An untitled page with a price on it: nothing is built from it and the
    store stays empty. *)
Lemma discarded_iff_title_or_id_empty_witness :
  @extractProductDetails ascii_runtime
    (PageLoaded Examples.untitled_document 1700000000000 1700000000001)
    Examples.product_url = None
  /\ @crawlItem ascii_runtime _ UniqueSlugStore.store
       {| listing := fun _ => NavigationFails;
          product_page := fun _ =>
            PageLoaded Examples.untitled_document
              1700000000000 1700000000001 |}
       [] Examples.product_url 0
     = ([], 0%nat).
Proof.
  pose proof
    (@discarded_iff_title_or_id_empty ascii_runtime _ UniqueSlugStore.store
       {| listing := fun _ => NavigationFails;
          product_page := fun _ =>
            PageLoaded Examples.untitled_document
              1700000000000 1700000000001 |}
       Examples.untitled_document Examples.product_url
       1700000000000 1700000000001) as [Discard Skip].
  split.
  - apply Discard. left. reflexivity.
  - apply Skip; [reflexivity | left; reflexivity].
Defined.

(** A second run over the same one-product web with the clock frozen: the
    store rejects the duplicate slug, and the run ends with one URL and no
    success. *)
Lemma rejected_insert_is_counted_and_survived_witness :
  @main ascii_runtime _ UniqueSlugStore.store Examples.one_product_world
    Examples.store_after_first_run 10
  = (Examples.store_after_first_run, Summary 1 0)
  /\ exists product,
       Examples.discounted_product = Some product
       /\ @saveToSupabase _ UniqueSlugStore.store
            Examples.store_after_first_run product
          = (Examples.store_after_first_run, false)
       /\ @crawlLoop ascii_runtime _ UniqueSlugStore.store
            Examples.one_product_world Examples.store_after_first_run
            [Examples.product_url] 0 0
          = (Examples.store_after_first_run, (1%nat, 0%nat)).
Proof.
  split; [vm_compute; reflexivity |].
  destruct Examples.discounted_product as [product |] eqn:E;
    [| vm_compute in E; discriminate E].
  exists product. split; [reflexivity |].
  assert (@insert _ UniqueSlugStore.store Examples.store_after_first_run
            (productInsert product)
          = (Examples.store_after_first_run,
             Rejected UniqueSlugStore.duplicate_key)) as Insert.
  { vm_compute in E. injection E as <-. vm_compute. reflexivity. }
  destruct (@rejected_insert_is_counted_and_survived ascii_runtime _
              UniqueSlugStore.store Examples.one_product_world
              _ _ Examples.product_url [] 0%nat 0%nat product _ E Insert)
    as (Saved & Step & _ & _).
  split; [exact Saved | exact Step].
Defined.

(* ================================================================== *)
(** * Properties of link discovery *)
(* ================================================================== *)

Section DiscoveryProperties.

Variable browse : jsstring -> Listing.

Lemma str_eqb_eq (a b : jsstring) : str_eqb a b = true <-> a = b.
Proof.
  unfold str_eqb.
  destruct (list_eq_dec N.eq_dec a b); split; congruence.
Qed.

Lemma array_includes_In (xs : list jsstring) (x : jsstring) :
  array_includes xs x = true <-> In x xs.
Proof.
  unfold array_includes. rewrite existsb_exists. split.
  - intros (y & Hy & E). apply str_eqb_eq in E. now subst.
  - intros Hx. exists x. split; [exact Hx | now apply str_eqb_eq].
Qed.

Lemma distinct_from_In (xs : list jsstring) :
  forall seen u,
    In u (distinct_from seen xs) <-> In u xs /\ ~ In u seen.
Proof.
  induction xs as [| x xs IH]; intros seen u; simpl.
  - tauto.
  - fold (array_includes seen x).
    destruct (array_includes seen x) eqn:Seen.
    + apply array_includes_In in Seen. rewrite IH.
      split; [tauto |]. intros [[-> | In_xs] Fresh]; tauto.
    + assert (~ In x seen) as Fresh.
      { intros Hx. apply array_includes_In in Hx. congruence. }
      simpl. rewrite IH. simpl.
      destruct (list_eq_dec N.eq_dec x u) as [-> | Ne]; tauto.
Qed.

Lemma distinct_from_NoDup (xs : list jsstring) :
  forall seen, NoDup (distinct_from seen xs).
Proof.
  induction xs as [| x xs IH]; intros seen; simpl.
  - constructor.
  - destruct (existsb (str_eqb x) seen); [apply IH |].
    constructor; [| apply IH].
    rewrite distinct_from_In. simpl. tauto.
Qed.

Lemma set_spread_In (xs : list jsstring) (u : jsstring) :
  In u (set_spread xs) <-> In u xs.
Proof.
  unfold set_spread. rewrite distinct_from_In. simpl. tauto.
Qed.

Lemma extractLinksFromPage_NoDup (page : Listing) :
  NoDup (extractLinksFromPage page).
Proof.
  destruct page; simpl; try constructor.
  apply distinct_from_NoDup.
Qed.

(** Pushing the links that are not yet in the array keeps it free of
    repetitions. *)
Lemma push_new_NoDup (productUrls urls : list jsstring) :
  NoDup productUrls -> NoDup urls ->
  NoDup (productUrls
         ++ filter (fun u => negb (array_includes productUrls u)) urls).
Proof.
  intros Old New. apply NoDup_app.
  - exact Old.
  - now apply NoDup_filter.
  - intros u In_old In_new. apply filter_In in In_new as [_ Fresh].
    apply array_includes_In in In_old. rewrite In_old in Fresh.
    discriminate Fresh.
Qed.

Lemma visit_NoDup (productUrls : list jsstring) (entry : EntryPoint) :
  NoDup productUrls -> NoDup (visit browse productUrls entry).
Proof.
  intros Old. unfold visit.
  destruct (browse (url entry)) eqn:Page; [exact Old | |];
    apply push_new_NoDup; auto; apply extractLinksFromPage_NoDup.
Qed.

Lemma visit_keeps (productUrls : list jsstring) (entry : EntryPoint) :
  incl productUrls (visit browse productUrls entry).
Proof.
  unfold visit.
  destruct (browse (url entry)); [apply incl_refl | |]; apply incl_appl,
    incl_refl.
Qed.

Lemma visit_adds (productUrls : list jsstring) (entry : EntryPoint)
  (u : jsstring) :
  In u (matching_urls browse entry) ->
  In u (visit browse productUrls entry).
Proof.
  unfold matching_urls, visit.
  destruct (browse (url entry)) as [| | hrefs]; try contradiction.
  intros Yield. simpl. apply in_or_app.
  destruct (array_includes productUrls u) eqn:Known.
  - left. now apply array_includes_In.
  - right. apply filter_In. split.
    + now apply set_spread_In.
    + now rewrite Known.
Qed.

Lemma fold_visit_NoDup (entries : list EntryPoint) :
  forall productUrls,
    NoDup productUrls -> NoDup (fold_left (visit browse) entries productUrls).
Proof.
  induction entries as [| entry rest IH]; intros productUrls Old; simpl.
  - exact Old.
  - apply IH, visit_NoDup, Old.
Qed.

Lemma fold_visit_keeps (entries : list EntryPoint) :
  forall productUrls,
    incl productUrls (fold_left (visit browse) entries productUrls).
Proof.
  induction entries as [| entry rest IH]; intros productUrls; simpl.
  - apply incl_refl.
  - eapply incl_tran; [apply visit_keeps | apply IH].
Qed.

Lemma fold_visit_adds (entries : list EntryPoint) :
  forall productUrls entry u,
    In entry entries -> In u (matching_urls browse entry) ->
    In u (fold_left (visit browse) entries productUrls).
Proof.
  induction entries as [| first rest IH];
    intros productUrls entry u Member Yield; simpl.
  - contradiction.
  - destruct Member as [-> | Member].
    + apply (fold_visit_keeps rest), visit_adds, Yield.
    + eapply IH; eauto.
Qed.

(** What the loop computes, by its guard: the entry points it visits are
    a prefix of the list; the array it ends with is the array after those
    visits; before each visit the array was shorter than the maximum; and
    when it stops before the end of the list the array has reached the
    maximum. *)
Lemma discoverLoop_spec (maxProducts : Z) (entries : list EntryPoint) :
  forall productUrls,
    let found := fst (discoverLoop browse maxProducts entries productUrls) in
    let visited :=
      snd (discoverLoop browse maxProducts entries productUrls) in
    found = fold_left (visit browse) visited productUrls
    /\ exists unvisited,
         entries = visited ++ unvisited
         /\ (forall before entry after,
                visited = before ++ entry :: after ->
                (Z.of_nat
                   (length (fold_left (visit browse) before productUrls))
                 < maxProducts)%Z)
         /\ (unvisited <> [] -> (maxProducts <= Z.of_nat (length found))%Z).
Proof.
  induction entries as [| entry rest IH]; intros productUrls; simpl.
  - split; [reflexivity |]. exists []. repeat split.
    + intros [| ? ?] ? ? E; discriminate E.
    + congruence.
  - destruct (Z.of_nat (length productUrls) >=? maxProducts)%Z eqn:Guard;
      simpl.
    + split; [reflexivity |]. exists (entry :: rest). repeat split.
      * intros [| ? ?] ? ? E; discriminate E.
      * intros _. lia.
    + specialize (IH (visit browse productUrls entry)).
      destruct (discoverLoop browse maxProducts rest
                  (visit browse productUrls entry)) as [found visited].
      simpl in *. destruct IH as (Found & unvisited & Split & Below & Full).
      split; [exact Found |]. exists unvisited. repeat split.
      * now rewrite Split.
      * intros [| first before] e after E; simpl.
        -- lia.
        -- injection E as <- E. eapply Below, E.
      * exact Full.
Qed.

Lemma firstn_NoDup {A} (n : nat) (l : list A) :
  NoDup l -> NoDup (firstn n l).
Proof.
  intros D. rewrite <- (firstn_skipn n l) in D.
  now apply NoDup_app_remove_r in D.
Qed.

Lemma slice0_NoDup {A} (l : list A) (n : Z) :
  NoDup l -> NoDup (slice0 l n).
Proof.
  unfold slice0. destruct (0 <=? n)%Z; apply firstn_NoDup.
Qed.

Lemma discoverLoop_NoDup (maxProducts : Z) :
  NoDup (fst (discoverLoop browse maxProducts urlsToTry [])).
Proof.
  destruct (discoverLoop_spec maxProducts urlsToTry []) as [-> _].
  apply fold_visit_NoDup. constructor.
Qed.

(** C6. No URL occurs twice in the array [getProductUrls] returns,
    whatever the anchors of the listing pages repeat, within a page or
    across pages. *)
Theorem getProductUrls_NoDup (maxProducts : Z) :
  NoDup (getProductUrls browse maxProducts).
Proof.
  unfold getProductUrls. apply slice0_NoDup, discoverLoop_NoDup.
Qed.

(** C5. For a maximum that is not negative: [getProductUrls] returns at
    most [maxProducts] URLs; when the entry points yield at least
    [maxProducts] distinct product links between them it returns exactly
    [maxProducts]; and the entry points it visits are the first ones of
    the list, each visited while the array was still shorter than
    [maxProducts], the rest left out once the array has reached it. *)
Theorem getProductUrls_capped (maxProducts : Z) :
  (0 <= maxProducts)%Z ->
  let result := getProductUrls browse maxProducts in
  let visited := visitedEntries browse maxProducts in
  (Z.of_nat (length result) <= maxProducts)%Z
  /\ ((exists distinct_links,
         NoDup distinct_links
         /\ (forall u, In u distinct_links ->
               exists entry,
                 In entry urlsToTry /\ In u (matching_urls browse entry))
         /\ (maxProducts <= Z.of_nat (length distinct_links))%Z) ->
      Z.of_nat (length result) = maxProducts)
  /\ exists unvisited,
       urlsToTry = visited ++ unvisited
       /\ (forall before entry after,
              visited = before ++ entry :: after ->
              (Z.of_nat (length (running_total browse before))
               < maxProducts)%Z)
       /\ (unvisited <> [] ->
           (maxProducts
            <= Z.of_nat (length (running_total browse visited)))%Z).
Proof.
  intros Max result visited.
  pose proof (discoverLoop_spec maxProducts urlsToTry []) as Spec.
  cbv zeta in Spec.
  change (snd (discoverLoop browse maxProducts urlsToTry []))
    with visited in Spec.
  destruct Spec as (Found & unvisited & Split & Below & Full).
  assert (result
          = firstn (Z.to_nat maxProducts) (running_total browse visited))
    as Result.
  { unfold result, getProductUrls, slice0, running_total.
    rewrite Found. apply Z.leb_le in Max. now rewrite Max. }
  split; [| split].
  - rewrite Result. pose proof (firstn_le_length (Z.to_nat maxProducts)
                                  (running_total browse visited)). lia.
  - intros (distinct_links & Distinct & Yielded & Many).
    assert (maxProducts
            <= Z.of_nat (length (running_total browse visited)))%Z as Enough.
    { destruct unvisited as [| entry rest].
      - rewrite app_nil_r in Split.
        assert (length distinct_links
                <= length (running_total browse visited))%nat; [| lia].
        apply NoDup_incl_length; [exact Distinct |].
        intros u Hu. destruct (Yielded u Hu) as (entry & Member & Yield).
        unfold running_total. rewrite <- Split.
        eapply fold_visit_adds; eauto.
      - unfold running_total. rewrite <- Found. apply Full. discriminate. }
    rewrite Result, length_firstn. lia.
  - exists unvisited. repeat split.
    + exact Split.
    + exact Below.
    + intros Rest. unfold running_total. rewrite <- Found. now apply Full.
Qed.

End DiscoveryProperties.

(** Two listing pages with three distinct product links and a maximum of
    two: exactly two URLs come back. *)
Lemma getProductUrls_capped_witness :
  (Z.of_nat (length (getProductUrls Examples.busy_listing 2)) <= 2)%Z
  /\ Z.of_nat (length (getProductUrls Examples.busy_listing 2)) = 2%Z.
Proof.
  destruct (getProductUrls_capped Examples.busy_listing (maxProducts := 2))
    as (Most & Exact & _); [lia |].
  split; [exact Most |].
  apply Exact.
  exists [ of_ascii "https://shopee.co.th/Phone-Case-i.1234.56789";
           of_ascii "https://shopee.co.th/Cable-i.77.88" ].
  split; [| split].
  - constructor; [| constructor; [| constructor]]; simpl.
    + intros [E | []]. discriminate E.
    + intros [].
  - intros u [<- | [<- | []]];
      (exists {| name := "검색: 전자기기";
                 url := of_ascii
                   "https://shopee.co.th/search?keyword=electronics" |});
      (split; [left; reflexivity | vm_compute; tauto]).
  - simpl. lia.
Defined.

(* ================================================================== *)
(** * Properties of the field extraction *)
(* ================================================================== *)

(** C9, a rating out of range: the first rating element reads 10; the value
    fails the test for the range 1 to 5, no later selector replaces it, and
    the record carries the rating 10. *)
Theorem rating_out_of_range_is_kept :
  exists product,
    @extractProductDetails ascii_runtime
      (PageLoaded Examples.rating_ten_document 1700000000000 1700000000001)
      Examples.product_url = Some product
    /\ ShopeeProduct.rating product = Num 10%Q
    /\ ~ at_most (ShopeeProduct.rating product) 5.
Proof.
  eexists. split; [vm_compute; reflexivity |].
  split; [reflexivity |].
  simpl. unfold Qle. simpl. lia.
Qed.

Section PriceProperties.

Lemma price_step_below (st : option number * option number)
  (value : number) :
  is_zero value = false ->
  price_below_original st -> price_below_original (price_step st value).
Proof.
  destruct st as [price originalPrice]. unfold price_below_original.
  simpl fst. simpl snd. intros NotZero Inv. unfold price_step.
  destruct (truthy_opt price) eqn:Truthy; simpl negb; simpl orb.
  - destruct price as [p |]; [| discriminate Truthy]. simpl in Truthy.
    simpl to_number.
    destruct (ltb value p) eqn:Lower.
    + simpl. intros o [= <-]. exists value.
      apply ltb_less_than in Lower. repeat split; [| exact Lower].
      destruct value as [| x]; [contradiction |].
      simpl in *. now rewrite NotZero.
    + destruct (gtb value p) eqn:Higher; simpl.
      * intros o [= <-]. exists p. repeat split; [exact Truthy |].
        now apply ltb_less_than.
      * exact Inv.
  - simpl. intros o Original.
    destruct (Inv o Original) as (p & -> & Truthy' & _).
    simpl in Truthy. congruence.
Qed.

Variable doc : Document.

Hypothesis no_zero_price :
  forall selector el value,
    In selector priceSelectors ->
    In el (querySelectorAll doc selector) ->
    price_value (textContent el) = Some value ->
    is_zero value = false.

Lemma scan_prices_below (els : list Element) :
  (forall el value,
      In el els -> price_value (textContent el) = Some value ->
      is_zero value = false) ->
  forall st,
    price_below_original st -> price_below_original (scan_prices st els).
Proof.
  unfold scan_prices.
  induction els as [| el rest IH]; intros NotZero st Inv; simpl.
  - exact Inv.
  - apply IH.
    + intros el' value Member. apply NotZero. now right.
    + destruct (price_value (textContent el)) as [value |] eqn:Value.
      * apply price_step_below; [| exact Inv].
        eapply NotZero; [now left | exact Value].
      * exact Inv.
Qed.

Lemma price_loop_below (selectors : list string) :
  incl selectors priceSelectors ->
  forall st,
    price_below_original st ->
    price_below_original (price_loop doc selectors st).
Proof.
  induction selectors as [| selector rest IH]; intros Known st Inv; simpl.
  - exact Inv.
  - assert (price_below_original
              (scan_prices st (querySelectorAll doc selector))) as Inv'.
    { apply scan_prices_below; [| exact Inv].
      intros el value. apply no_zero_price, Known. now left. }
    destruct (truthy_opt (fst (scan_prices st _))).
    + exact Inv'.
    + apply IH; [| exact Inv'].
      intros s Hs. apply Known. now right.
Qed.

(** C10. On a page none of whose price texts has the value
    zero, whenever the extracted original price is not null, the extracted
    price is not null either, and is a number strictly below it. *)
Theorem originalPrice_above_price `{Runtime} (o : number) :
  ProductData.originalPrice (evaluateProductData doc) = Some o ->
  exists p,
    ProductData.price (evaluateProductData doc) = Some p /\ less_than p o.
Proof.
  simpl. intros Original.
  assert (price_below_original (extract_prices doc)) as Inv.
  { apply price_loop_below; [apply incl_refl |].
    intros o' E. discriminate E. }
  destruct (Inv o Original) as (p & Price & _ & Below).
  now exists p.
Qed.

End PriceProperties.

(** The discounted page: the original price 250 comes with the price 100. *)
Lemma originalPrice_above_price_witness :
  exists p,
    ProductData.price
      (@evaluateProductData ascii_runtime Examples.discounted_document)
    = Some p
    /\ less_than p (Num 250%Q).
Proof.
  apply (@originalPrice_above_price Examples.discounted_document).
  - intros selector el value Selector Member Value.
    simpl in Selector.
    repeat (destruct Selector as [<- | Selector];
            [simpl in Member;
             repeat (destruct Member as [<- | Member];
                     [vm_compute in Value; injection Value as <-;
                      reflexivity |]);
             contradiction |]).
    contradiction.
  - reflexivity.
Defined.

(** C10, with a zero among the prices: on the page whose price block
    reads 5, 0 and 7 the original price is 5 and the price is 7. *)
Lemma zero_price_breaks_order :
  ~ (forall o,
        ProductData.originalPrice
          (@evaluateProductData ascii_runtime
             Examples.zero_among_prices_document) = Some o ->
        exists p,
          ProductData.price
            (@evaluateProductData ascii_runtime
               Examples.zero_among_prices_document) = Some p
          /\ less_than p o).
Proof.
  intros Always.
  destruct (Always (Num 5%Q) eq_refl) as (p & Price & Below).
  vm_compute in Price. injection Price as <-.
  simpl in Below. unfold Qlt in Below. simpl in Below. lia.
Qed.

(* ================================================================== *)
(** * The slugs of one run *)
(* ================================================================== *)

Section SlugsOfOneRun.

Context `{Runtime}.
Variable web : jsstring -> PacedPage.

(** The clock is read in [createSlug] at least 3000 ms after the
    iteration starts, and before the iteration ends. *)
Lemma page_seen_clock (now : Z) (page : PacedPage) (doc : Document)
  (t c : Z) :
  page_seen now page = PageLoaded doc t c ->
  (now + 3000 <= t <= iteration_end now page)%Z.
Proof.
  destruct page as [elapsed | doc' pace]; simpl; [discriminate |].
  intros [= _ <- _]. unfold slug_time. lia.
Qed.

Lemma iteration_end_later (now : Z) (page : PacedPage) :
  (now <= iteration_end now page)%Z.
Proof.
  destruct page as [elapsed | doc pace]; simpl; unfold slug_time; lia.
Qed.

Lemma page_in_run_clock (urls : list jsstring) :
  forall now url doc t c,
    page_in_run web urls now url = PageLoaded doc t c ->
    (now + 3000 <= t)%Z.
Proof.
  induction urls as [| first rest IH]; intros now url doc t c; simpl;
    [discriminate |].
  destruct (str_eqb first url).
  - intros Seen. now apply page_seen_clock in Seen.
  - intros Later. apply IH in Later.
    pose proof (iteration_end_later now (web first)). lia.
Qed.

(** Two URLs of one run have their slugs made at different readings of
    the clock: the later one at least 3000 ms after the earlier. *)
Lemma page_in_run_clocks_differ (urls : list jsstring) :
  forall now u1 u2 doc1 t1 c1 doc2 t2 c2,
    u1 <> u2 ->
    page_in_run web urls now u1 = PageLoaded doc1 t1 c1 ->
    page_in_run web urls now u2 = PageLoaded doc2 t2 c2 ->
    t1 <> t2.
Proof.
  induction urls as [| first rest IH];
    intros now u1 u2 doc1 t1 c1 doc2 t2 c2 Different; simpl;
    [discriminate |].
  destruct (str_eqb first u1) eqn:First1, (str_eqb first u2) eqn:First2.
  - apply str_eqb_eq in First1, First2. congruence.
  - intros Seen Later. apply page_seen_clock in Seen.
    apply page_in_run_clock in Later. lia.
  - intros Later Seen. apply page_seen_clock in Seen.
    apply page_in_run_clock in Later. lia.
  - now apply IH.
Qed.

Lemma extractProductDetails_slug (page : ProductPage) (url : jsstring)
  (product : ShopeeProduct.t) :
  extractProductDetails page url = Some product ->
  exists doc t c,
    page = PageLoaded doc t c
    /\ ShopeeProduct.slug product
       = createSlug (ShopeeProduct.title product) t.
Proof.
  destruct page as [| doc t c]; simpl; [discriminate |].
  unfold normalize. destruct (_ || _); [discriminate |].
  intros [= <-]. now exists doc, t, c.
Qed.

(** C3. In one run of [main], two invocations of the slug generator on
    the same title return distinct slugs: the products built from two
    different URLs of the run that have the same title have different
    slugs, because each slug is made after the awaited timer of at least
    3000 ms of its own iteration. *)
Theorem slugs_of_one_run_differ (browse : jsstring -> Listing)
  (start maxProducts : Z) (u1 u2 : jsstring) (p1 p2 : ShopeeProduct.t) :
  let world := paced_world browse web start maxProducts in
  u1 <> u2 ->
  extractProductDetails (product_page world u1) u1 = Some p1 ->
  extractProductDetails (product_page world u2) u2 = Some p2 ->
  ShopeeProduct.title p1 = ShopeeProduct.title p2 ->
  ShopeeProduct.slug p1 <> ShopeeProduct.slug p2.
Proof.
  intros world Different Built1 Built2 Same_title.
  apply extractProductDetails_slug in Built1
    as (doc1 & t1 & c1 & Page1 & ->).
  apply extractProductDetails_slug in Built2
    as (doc2 & t2 & c2 & Page2 & ->).
  rewrite Same_title. apply createSlug_distinct_iff_clock.
  eapply page_in_run_clocks_differ; [exact Different | exact Page1 |].
  exact Page2.
Qed.

End SlugsOfOneRun.

(** Two URLs of the steady run load a page with the same title: the two
    slugs differ. *)
Lemma slugs_of_one_run_differ_witness :
  exists p1 p2,
    @extractProductDetails ascii_runtime
      (product_page Examples.steady_run Examples.product_url)
      Examples.product_url = Some p1
    /\ @extractProductDetails ascii_runtime
         (product_page Examples.steady_run
            (of_ascii "https://shopee.co.th/Cable-i.77.88"))
         (of_ascii "https://shopee.co.th/Cable-i.77.88") = Some p2
    /\ ShopeeProduct.title p1 = ShopeeProduct.title p2
    /\ ShopeeProduct.slug p1 <> ShopeeProduct.slug p2.
Proof.
  destruct (@extractProductDetails ascii_runtime
              (product_page Examples.steady_run Examples.product_url)
              Examples.product_url) as [p1 |] eqn:Built1;
    [| vm_compute in Built1; discriminate Built1].
  destruct (@extractProductDetails ascii_runtime
              (product_page Examples.steady_run
                 (of_ascii "https://shopee.co.th/Cable-i.77.88"))
              (of_ascii "https://shopee.co.th/Cable-i.77.88"))
    as [p2 |] eqn:Built2;
    [| vm_compute in Built2; discriminate Built2].
  assert (ShopeeProduct.title p1 = ShopeeProduct.title p2) as Same_title.
  { vm_compute in Built1, Built2.
    injection Built1 as <-. injection Built2 as <-. reflexivity. }
  exists p1, p2. repeat split; [exact Same_title |].
  apply (@slugs_of_one_run_differ ascii_runtime Examples.steady_web
           Examples.busy_listing 1700000000000 10
           Examples.product_url
           (of_ascii "https://shopee.co.th/Cable-i.77.88") p1 p2);
    [discriminate | exact Built1 | exact Built2 | exact Same_title].
Defined.

(* ================================================================== *)
(** * Further properties: regular expressions and strings *)
(* ================================================================== *)

Lemma span_split (p : char16 -> bool) (s : jsstring) :
  s = fst (span p s) ++ snd (span p s).
Proof.
  induction s as [| c s IH]; simpl; [reflexivity |].
  destruct (p c); [| reflexivity].
  destruct (span p s) as [a b]. simpl in *. now f_equal.
Qed.

Lemma span_fst_all (p : char16 -> bool) (s : jsstring) :
  Forall (fun c => p c = true) (fst (span p s)).
Proof.
  induction s as [| c s IH]; simpl; [constructor |].
  destruct (p c) eqn:P; [| constructor].
  destruct (span p s) as [a b]. simpl in *. now constructor.
Qed.

Lemma span_of_all (p : char16 -> bool) (s : jsstring) :
  Forall (fun c => p c = true) s -> span p s = (s, []).
Proof.
  induction 1 as [| c s Hc Hs IH]; simpl; [reflexivity |].
  now rewrite Hc, IH.
Qed.

(** A successful search is a successful attempt at some position. *)
Lemma regex_search_found {A} (try_at : jsstring -> option A) (s : jsstring)
  (r : A) :
  regex_search try_at s = Some r ->
  exists before rest, s = before ++ rest /\ try_at rest = Some r.
Proof.
  induction s as [| c s IH]; simpl.
  - destruct (try_at []) eqn:E; [| discriminate].
    intros [= ->]. now exists [], [].
  - destruct (try_at (c :: s)) eqn:E.
    + intros [= ->]. now exists [], (c :: s).
    + intros Found. destruct (IH Found) as (before & rest & -> & Attempt).
      now exists (c :: before), rest.
Qed.

(** Text in front of a string that matches does not hide the match. *)
Lemma regex_search_after {A} (try_at : jsstring -> option A)
  (before s : jsstring) :
  is_some (regex_search try_at s) = true ->
  is_some (regex_search try_at (before ++ s)) = true.
Proof.
  intros Found.
  induction before as [| c before IH]; simpl; [exact Found |].
  destruct (try_at (c :: before ++ s)); [reflexivity | exact IH].
Qed.

Lemma digits_at_shape (s ds rest : jsstring) :
  digits_at s = Some (ds, rest) ->
  ds <> [] /\ Forall (fun c => is_digit c = true) ds.
Proof.
  unfold digits_at. pose proof (span_fst_all is_digit s) as All.
  destruct (span is_digit s) as [[| d run] after]; [discriminate |].
  intros [= <- <-]. split; [discriminate | exact All].
Qed.

Lemma id_pair_at_shape (prefix : jsstring) (sep : char16)
  (s first second : jsstring) :
  id_pair_at prefix sep s = Some (first, second) ->
  (first <> [] /\ Forall (fun c => is_digit c = true) first)
  /\ (second <> [] /\ Forall (fun c => is_digit c = true) second).
Proof.
  unfold id_pair_at.
  destruct (startsWith prefix s); [| discriminate].
  destruct (digits_at (skipn (length prefix) s))
    as [[ds [| c rest]] |] eqn:First; try discriminate.
  destruct (c =? sep); [| discriminate].
  destruct (digits_at rest) as [[ds' rest'] |] eqn:Second; [| discriminate].
  intros [= <- <-]. split; eapply digits_at_shape; eauto.
Qed.

(* ================================================================== *)
(** * Further properties of link discovery *)
(* ================================================================== *)

Section DiscoverySoundness.

Variable browse : jsstring -> Listing.

Lemma visit_sound (productUrls : list jsstring) (entry : EntryPoint)
  (u : jsstring) :
  In u (visit browse productUrls entry) ->
  In u productUrls \/ In u (matching_urls browse entry).
Proof.
  unfold visit, matching_urls.
  destruct (browse (url entry)) as [| | hrefs].
  - now left.
  - simpl. rewrite app_nil_r. now left.
  - intros Member. apply in_app_or in Member as [Old | New];
      [now left | right].
    apply filter_In in New as [New _].
    unfold extractLinksFromPage in New.
    exact (proj1 (set_spread_In browse _ _) New).
Qed.

Lemma fold_visit_sound (entries : list EntryPoint) :
  forall productUrls u,
    In u (fold_left (visit browse) entries productUrls) ->
    In u productUrls
    \/ exists entry, In entry entries /\ In u (matching_urls browse entry).
Proof.
  induction entries as [| first rest IH]; intros productUrls u; simpl.
  - now left.
  - intros Member. destruct (IH _ _ Member) as [Old | (entry & In_rest & Y)].
    + destruct (visit_sound _ _ _ Old) as [Older | Yield];
        [now left | right].
      exists first. split; [now left | exact Yield].
    + right. exists entry. split; [now right | exact Y].
Qed.

Lemma firstn_incl {A} (n : nat) (l : list A) : incl (firstn n l) l.
Proof.
  intros x Member. rewrite <- (firstn_skipn n l).
  apply in_or_app. now left.
Qed.

Lemma slice0_incl {A} (l : list A) (n : Z) : incl (slice0 l n) l.
Proof.
  unfold slice0. destruct (0 <=? n)%Z; apply firstn_incl.
Qed.

Lemma getProductUrls_from_entry (maxProducts : Z) (u : jsstring) :
  In u (getProductUrls browse maxProducts) ->
  exists entry, In entry urlsToTry /\ In u (matching_urls browse entry).
Proof.
  unfold getProductUrls. intros Member. apply slice0_incl in Member.
  destruct (discoverLoop_spec browse maxProducts urlsToTry [])
    as (Found & unvisited & Split & _).
  rewrite Found in Member.
  destruct (fold_visit_sound _ _ _ Member) as [[] | (entry & Visited & Y)].
  exists entry. split; [| exact Y].
  rewrite Split. apply in_or_app. now left.
Qed.

Lemma matching_urls_shape (entry : EntryPoint) (u : jsstring) :
  In u (matching_urls browse entry) ->
  exists hrefs href,
    browse (url entry) = Anchors hrefs /\ In href hrefs
    /\ is_product_link href = true /\ u = fullUrl href.
Proof.
  unfold matching_urls, links.
  destruct (browse (url entry)) as [| | hrefs]; try contradiction.
  intros Member. apply in_map_iff in Member as (href & <- & Kept).
  apply filter_In in Kept as [Listed Link].
  now exists hrefs, href.
Qed.

Lemma fullUrl_absolute (href : jsstring) :
  startsWith (of_ascii "http") (fullUrl href) = true.
Proof.
  unfold fullUrl.
  destruct (startsWith (of_ascii "http") href) eqn:Absolute;
    [exact Absolute | reflexivity].
Qed.

Lemma fullUrl_keeps_pattern (href : jsstring) :
  is_product_link href = true ->
  is_some (regex_search item_link_at (fullUrl href)) = true.
Proof.
  unfold is_product_link, fullUrl. intros Link.
  apply andb_true_iff in Link as [_ Pattern].
  destruct (startsWith (of_ascii "http") href); [exact Pattern |].
  now apply regex_search_after.
Qed.

(** X1. Every URL [getProductUrls] returns was built from an anchor of the
    page of one of the entry points: the anchor's [href] passed the
    product-link test and the URL is that [href], made absolute. *)
Theorem getProductUrls_provenance (maxProducts : Z) (u : jsstring) :
  In u (getProductUrls browse maxProducts) ->
  exists entry hrefs href,
    In entry urlsToTry
    /\ browse (url entry) = Anchors hrefs
    /\ In href hrefs
    /\ is_product_link href = true
    /\ u = fullUrl href.
Proof.
  intros Member.
  destruct (getProductUrls_from_entry _ _ Member) as (entry & Listed & Y).
  destruct (matching_urls_shape _ _ Y) as (hrefs & href & Page & Rest).
  now exists entry, hrefs, href.
Qed.

Lemma getProductUrls_absolute_links (maxProducts : Z) (u : jsstring) :
  In u (getProductUrls browse maxProducts) ->
  startsWith (of_ascii "http") u = true
  /\ is_some (regex_search item_link_at u) = true.
Proof.
  intros Member.
  destruct (getProductUrls_from_entry _ _ Member) as (entry & Listed & Y).
  destruct (matching_urls_shape _ _ Y)
    as (hrefs & href & _ & _ & Link & ->).
  split; [apply fullUrl_absolute | now apply fullUrl_keeps_pattern].
Qed.

(** X2. Every URL [getProductUrls] returns starts with [http] and contains
    a match of the pattern [-i.<digits>.<digits>]. *)
Theorem getProductUrls_shape (maxProducts : Z) (u : jsstring) :
  In u (getProductUrls browse maxProducts) ->
  startsWith (of_ascii "http") u = true
  /\ is_some (regex_search item_link_at u) = true.
Proof.
  apply getProductUrls_absolute_links.
Qed.

End DiscoverySoundness.

Section DiscoveryGrowth.

Variable browse : jsstring -> Listing.

Lemma visit_extends (productUrls : list jsstring) (entry : EntryPoint) :
  exists pushed, visit browse productUrls entry = productUrls ++ pushed.
Proof.
  unfold visit. destruct (browse (url entry)).
  - exists []. now rewrite app_nil_r.
  - now eexists.
  - now eexists.
Qed.

Lemma fold_visit_extends (entries : list EntryPoint) :
  forall productUrls,
    exists pushed,
      fold_left (visit browse) entries productUrls = productUrls ++ pushed.
Proof.
  induction entries as [| entry rest IH]; intros productUrls; simpl.
  - exists []. now rewrite app_nil_r.
  - destruct (visit_extends productUrls entry) as (first & ->).
    destruct (IH (productUrls ++ first)) as (more & ->).
    exists (first ++ more). now rewrite app_assoc.
Qed.

Lemma discoverLoop_extends (maxProducts : Z) (entries : list EntryPoint)
  (productUrls : list jsstring) :
  exists pushed,
    fst (discoverLoop browse maxProducts entries productUrls)
    = productUrls ++ pushed.
Proof.
  destruct (discoverLoop_spec browse maxProducts entries productUrls)
    as [-> _].
  apply fold_visit_extends.
Qed.

Lemma firstn_app_short {A} (n : nat) (l more : list A) :
  (n <= length l)%nat -> firstn n (l ++ more) = firstn n l.
Proof.
  intros Short. rewrite firstn_app.
  replace (n - length l)%nat with 0%nat by lia.
  simpl. apply app_nil_r.
Qed.

Lemma discoverLoop_first_urls (m1 m2 : Z) (entries : list EntryPoint) :
  (0 <= m1 <= m2)%Z ->
  forall productUrls,
    firstn (Z.to_nat m1) (fst (discoverLoop browse m1 entries productUrls))
    = firstn (Z.to_nat m1) (fst (discoverLoop browse m2 entries productUrls)).
Proof.
  intros Order.
  induction entries as [| entry rest IH]; intros productUrls;
    [reflexivity |].
  destruct (discoverLoop_extends m2 (entry :: rest) productUrls)
    as (pushed & Grown).
  simpl in *.
  destruct (Z.of_nat (length productUrls) >=? m1)%Z eqn:Full1.
  - simpl. rewrite Grown. symmetry. apply firstn_app_short. lia.
  - destruct (Z.of_nat (length productUrls) >=? m2)%Z eqn:Full2; [lia |].
    specialize (IH (visit browse productUrls entry)).
    destruct (discoverLoop browse m1 rest (visit browse productUrls entry)),
      (discoverLoop browse m2 rest (visit browse productUrls entry)).
    exact IH.
Qed.

(** X3. Raising the maximum only appends: for maxima [0 <= m1 <= m2], the
    URLs returned for [m1] are the first [m1] of those returned for [m2]. *)
Theorem getProductUrls_prefix_of_larger_run (m1 m2 : Z) :
  (0 <= m1 <= m2)%Z ->
  getProductUrls browse m1
  = firstn (Z.to_nat m1) (getProductUrls browse m2).
Proof.
  intros Order. unfold getProductUrls, slice0.
  destruct (Z.leb_spec 0 m1), (Z.leb_spec 0 m2); try lia.
  rewrite firstn_firstn.
  replace (Nat.min (Z.to_nat m1) (Z.to_nat m2)) with (Z.to_nat m1) by lia.
  now apply discoverLoop_first_urls.
Qed.

Lemma visit_nothing (productUrls : list jsstring) (entry : EntryPoint) :
  matching_urls browse entry = [] ->
  visit browse productUrls entry = productUrls.
Proof.
  unfold matching_urls, visit.
  destruct (browse (url entry)) as [| | hrefs]; simpl.
  - reflexivity.
  - intros _. apply app_nil_r.
  - intros ->. apply app_nil_r.
Qed.

Lemma fold_visit_nothing (entries : list EntryPoint) :
  (forall entry, In entry entries -> matching_urls browse entry = []) ->
  forall productUrls,
    fold_left (visit browse) entries productUrls = productUrls.
Proof.
  induction entries as [| entry rest IH]; intros Nothing productUrls; simpl.
  - reflexivity.
  - rewrite visit_nothing by (apply Nothing; now left).
    apply IH. intros e Member. apply Nothing. now right.
Qed.

Lemma getProductUrls_nothing (maxProducts : Z) :
  (forall entry, In entry urlsToTry -> matching_urls browse entry = []) ->
  getProductUrls browse maxProducts = [].
Proof.
  intros Nothing. unfold getProductUrls.
  destruct (discoverLoop_spec browse maxProducts urlsToTry [])
    as (-> & unvisited & Split & _).
  rewrite fold_visit_nothing.
  - unfold slice0. destruct (0 <=? maxProducts)%Z; apply firstn_nil.
  - intros entry Visited. apply Nothing. rewrite Split.
    apply in_or_app. now left.
Qed.

(** For a maximum below one the loop stops at its first guard. *)
Lemma getProductUrls_no_room (maxProducts : Z) :
  (maxProducts <= 0)%Z -> getProductUrls browse maxProducts = [].
Proof.
  intros Low. unfold getProductUrls, urlsToTry. cbn [discoverLoop].
  change (Z.of_nat (length (@nil jsstring))) with 0%Z.
  destruct (0 >=? maxProducts)%Z eqn:Guard; [| lia].
  unfold slice0. cbn [fst]. destruct (0 <=? maxProducts)%Z; apply firstn_nil.
Qed.

Lemma getProductUrls_length (maxProducts : Z) :
  getProductUrls browse maxProducts = []
  \/ (Z.of_nat (length (getProductUrls browse maxProducts))
      <= maxProducts)%Z.
Proof.
  destruct (Z.leb_spec maxProducts 0) as [Low | Room].
  - left. now apply getProductUrls_no_room.
  - right. unfold getProductUrls, slice0.
    destruct (Z.leb_spec 0 maxProducts); [| lia].
    pose proof (firstn_le_length (Z.to_nat maxProducts)
                  (fst (discoverLoop browse maxProducts urlsToTry []))).
    lia.
Qed.

End DiscoveryGrowth.

(** Two pages with three distinct product links: the two URLs returned for
    a maximum of 2 are the first two of the three returned for 10. *)
Lemma getProductUrls_prefix_of_larger_run_witness :
  getProductUrls Examples.busy_listing 2
  = firstn 2 (getProductUrls Examples.busy_listing 10).
Proof.
  apply (@getProductUrls_prefix_of_larger_run Examples.busy_listing 2 10).
  lia.
Defined.

(** The first URL of the example listing comes from an anchor of the
    first entry point. *)
Lemma getProductUrls_provenance_witness :
  exists entry hrefs href,
    In entry urlsToTry
    /\ Examples.busy_listing (url entry) = Anchors hrefs
    /\ In href hrefs
    /\ is_product_link href = true
    /\ of_ascii "https://shopee.co.th/Phone-Case-i.1234.56789"
       = fullUrl href.
Proof.
  apply (@getProductUrls_provenance Examples.busy_listing 2).
  left. reflexivity.
Defined.

Lemma getProductUrls_shape_witness :
  startsWith (of_ascii "http")
    (of_ascii "https://shopee.co.th/Cable-i.77.88") = true
  /\ is_some (regex_search item_link_at
                (of_ascii "https://shopee.co.th/Cable-i.77.88")) = true.
Proof.
  apply (@getProductUrls_shape Examples.busy_listing 2).
  right. left. reflexivity.
Defined.

(* ================================================================== *)
(** * Further properties of the identifiers and of the main loop *)
(* ================================================================== *)

Section IdentifierProperties.

Variable doc : Document.

Lemma search_id_pair_shape (prefix : jsstring) (sep : char16)
  (s first second : jsstring) :
  regex_search (id_pair_at prefix sep) s = Some (first, second) ->
  (first <> [] /\ Forall (fun c => is_digit c = true) first)
  /\ (second <> [] /\ Forall (fun c => is_digit c = true) second).
Proof.
  intros Found.
  apply regex_search_found in Found as (before & rest & _ & Attempt).
  eapply id_pair_at_shape, Attempt.
Qed.

(** X4. The shop id and the item id the script extracts are runs of
    decimal digits, and they are both empty or both non-empty. *)
Theorem extract_ids_shape :
  Forall (fun c => is_digit c = true) (fst (extract_ids doc))
  /\ Forall (fun c => is_digit c = true) (snd (extract_ids doc))
  /\ (fst (extract_ids doc) = [] <-> snd (extract_ids doc) = []).
Proof.
  unfold extract_ids, urlMatch, productMatch, item_link_at, product_path_at.
  destruct (regex_search _ (location_href doc)) as [[shop item] |] eqn:Href.
  - apply search_id_pair_shape in Href as ((S1 & S2) & (I1 & I2)).
    simpl. repeat split; auto; intros E; congruence.
  - destruct (regex_search _ (location_pathname doc))
      as [[shop item] |] eqn:Path.
    + apply search_id_pair_shape in Path as ((S1 & S2) & (I1 & I2)).
      simpl. repeat split; auto; intros E; congruence.
    + simpl. repeat split; auto.
Qed.

Lemma extract_ids_of_product_link :
  is_some (regex_search item_link_at (location_href doc)) = true ->
  snd (extract_ids doc) <> [].
Proof.
  unfold extract_ids, urlMatch.
  destruct (regex_search item_link_at (location_href doc))
    as [[shop item] |] eqn:Href; [| discriminate].
  intros _. apply search_id_pair_shape in Href. simpl. tauto.
Qed.

(** X5. A URL returned by [getProductUrls], loaded without a redirect,
    always yields an item id: such a page is discarded exactly when no
    title is found on it. *)
Theorem discovered_url_has_item_id `{Runtime} (browse : jsstring -> Listing)
  (maxProducts : Z) (u : jsstring) (slug_clock crawl_clock : Z) :
  In u (getProductUrls browse maxProducts) ->
  location_href doc = u ->
  ProductData.itemId (evaluateProductData doc) <> []
  /\ (extractProductDetails (PageLoaded doc slug_clock crawl_clock) u = None
      <-> ProductData.title (evaluateProductData doc) = []).
Proof.
  intros Member Href.
  assert (ProductData.itemId (evaluateProductData doc) <> []) as Item.
  { apply extract_ids_of_product_link. rewrite Href.
    eapply getProductUrls_absolute_links, Member. }
  split; [exact Item |].
  unfold extractProductDetails. rewrite normalize_none_iff. tauto.
Qed.

End IdentifierProperties.

Lemma discovered_url_has_item_id_witness :
  ProductData.itemId
    (@evaluateProductData ascii_runtime Examples.discounted_document) <> []
  /\ (@extractProductDetails ascii_runtime
        (PageLoaded Examples.discounted_document 1 2) Examples.product_url
      = None
      <-> ProductData.title
            (@evaluateProductData ascii_runtime Examples.discounted_document)
          = []).
Proof.
  apply (@discovered_url_has_item_id Examples.discounted_document
           ascii_runtime Examples.busy_listing 2).
  - left. reflexivity.
  - reflexivity.
Defined.

Section RunFurther.

Context `{Runtime}.
Context {DB : Type} `{CatalogStore DB}.
Variable world : World.

(** X6. When no listing page yields a product link (navigation fails, the
    script fails, or no anchor passes the test), [main] ends with the
    warning that nothing was collected and leaves the store as it was,
    whatever the maximum. *)
Theorem main_without_links (supabase : DB) (maxProducts : Z) :
  (forall entry,
      In entry urlsToTry -> matching_urls (listing world) entry = []) ->
  main world supabase maxProducts = (supabase, NothingCollected).
Proof.
  intros Nothing. unfold main.
  now rewrite getProductUrls_nothing.
Qed.

(** X7. When [main] ends with its summary, the total it reports is at
    least 1 and at most [maxProducts], and the number of successes is at
    most the total. *)
Theorem main_summary_bounds (supabase supabase' : DB) (maxProducts : Z)
  (total successCount : nat) :
  main world supabase maxProducts = (supabase', Summary total successCount) ->
  (1 <= total)%nat
  /\ (Z.of_nat total <= maxProducts)%Z
  /\ (successCount <= total)%nat.
Proof.
  unfold main.
  pose proof (getProductUrls_length (listing world) maxProducts) as Length.
  destruct (getProductUrls (listing world) maxProducts) as [| u rest];
    [discriminate |].
  destruct Length as [Empty | Length]; [discriminate Empty |].
  pose proof (crawlLoop_success_bounds world (u :: rest) supabase 0 0)
    as Bound.
  destruct (crawlLoop world supabase (u :: rest) 0 0) as [db [i n]].
  intros [= <- <- <-]. cbn [snd] in Bound.
  change (length (u :: rest)) with (S (length rest)) in *.
  repeat split; [lia | exact Length | lia].
Qed.

(** X8. URLs whose pages yield no product (navigation fails, or the title
    or the item id is missing) only advance the index: the store and the
    success counter come out of the loop as they went in. *)
Theorem crawlLoop_without_products (urls : list jsstring) :
  (forall url,
      In url urls ->
      extractProductDetails (product_page world url) url = None) ->
  forall (supabase : DB) (i successCount : nat),
    crawlLoop world supabase urls i successCount
    = (supabase, ((i + length urls)%nat, successCount)).
Proof.
  induction urls as [| url rest IH]; intros Failing supabase i successCount;
    simpl.
  - now rewrite Nat.add_0_r.
  - unfold crawlItem. rewrite Failing by now left.
    rewrite IH by (intros u Member; apply Failing; now right).
    replace (S i + length rest)%nat with (i + S (length rest))%nat by lia.
    reflexivity.
Qed.

End RunFurther.

Lemma main_without_links_witness :
  @main ascii_runtime _ UniqueSlugStore.store
    {| listing := fun _ => NavigationFails;
       product_page := fun _ => PageFails |}
    Examples.store_after_first_run 10
  = (Examples.store_after_first_run, NothingCollected).
Proof.
  apply (@main_without_links ascii_runtime _ UniqueSlugStore.store).
  intros entry _. reflexivity.
Defined.

Lemma main_summary_bounds_witness :
  @main ascii_runtime _ UniqueSlugStore.store Examples.one_product_world
    [] 10
  = (Examples.store_after_first_run, Summary 1 1)
  /\ (1 <= 1)%nat /\ (Z.of_nat 1 <= 10)%Z /\ (1 <= 1)%nat.
Proof.
  assert (@main ascii_runtime _ UniqueSlugStore.store
            Examples.one_product_world [] 10
          = (Examples.store_after_first_run, Summary 1 1)) as Run
    by (vm_compute; reflexivity).
  split; [exact Run |].
  exact (@main_summary_bounds ascii_runtime _ UniqueSlugStore.store
           Examples.one_product_world [] Examples.store_after_first_run
           10 1 1 Run).
Defined.

Lemma crawlLoop_without_products_witness :
  @crawlLoop ascii_runtime _ UniqueSlugStore.store
    {| listing := fun _ => NavigationFails;
       product_page := fun _ => PageFails |}
    Examples.store_after_first_run
    [Examples.product_url; of_ascii "https://shopee.co.th/Cable-i.77.88"]
    0 0
  = (Examples.store_after_first_run, (2%nat, 0%nat)).
Proof.
  apply (@crawlLoop_without_products ascii_runtime _ UniqueSlugStore.store).
  intros url _. reflexivity.
Defined.

(* ================================================================== *)
(** * Further properties of the slug generator *)
(* ================================================================== *)

Section SlugFurther.

Context `{Runtime}.

Lemma uint_units_no_hyphen (d : Decimal.uint) : ~ In hyphen (uint_units d).
Proof.
  induction d; simpl; intuition discriminate.
Qed.

(** A string is cut at its last separator in one way only. *)
Lemma last_separator_unique (sep : char16) (p1 p2 d1 d2 : jsstring) :
  ~ In sep d1 -> ~ In sep d2 ->
  p1 ++ sep :: d1 = p2 ++ sep :: d2 -> d1 = d2.
Proof.
  intros Free1 Free2. revert p2.
  induction p1 as [| c p1 IH]; intros [| c' p2]; simpl; intros Same.
  - now injection Same.
  - injection Same as Head Tail. exfalso. apply Free1. rewrite Tail.
    apply in_or_app. right. now left.
  - injection Same as Head Tail. exfalso. apply Free2. rewrite <- Tail.
    apply in_or_app. right. now left.
  - injection Same as Head Tail. eapply IH. exact Tail.
Qed.

Lemma int_to_string_of_not_negative (z : Z) :
  (0 <= z)%Z -> ~ In hyphen (int_to_string z).
Proof.
  unfold int_to_string. destruct z as [| p | p]; simpl; intros Sign.
  - intros [E | []]. discriminate E.
  - apply uint_units_no_hyphen.
  - lia.
Qed.

(** X9. Slugs made at different readings of the clock differ, whatever
    the two titles are: for clock readings that are not negative, equal
    slugs were made at the same reading. *)
Theorem createSlug_clock_is_recoverable (title1 title2 : jsstring)
  (t1 t2 : Z) :
  (0 <= t1)%Z -> (0 <= t2)%Z ->
  createSlug title1 t1 = createSlug title2 t2 -> t1 = t2.
Proof.
  unfold createSlug, discriminator. intros Sign1 Sign2 Same.
  apply int_to_string_inj.
  eapply last_separator_unique; [| | exact Same];
    now apply int_to_string_of_not_negative.
Qed.

(** X10. A title none of whose characters, once lowercased, is on the
    allow-list (an empty title, a title of punctuation only) gives a slug
    that is the discriminator alone: a hyphen and the clock reading. *)
Theorem createSlug_without_allowed_characters (title : jsstring) (now : Z) :
  Forall (fun c => slug_keeps c = false) (toLowerCase title) ->
  createSlug title now = discriminator now.
Proof.
  unfold createSlug, keep. intros Dropped.
  replace (filter slug_keeps (toLowerCase title)) with (@nil char16);
    [reflexivity |].
  induction Dropped as [| c s Hc Hs IH]; simpl; [reflexivity |].
  now rewrite Hc.
Qed.

End SlugFurther.

Lemma createSlug_clock_is_recoverable_witness :
  @createSlug ascii_runtime (of_ascii "Phone Case") 1700000000000
  = @createSlug ascii_runtime (of_ascii "phone  case!") 1700000000000
  /\ 1700000000000%Z = 1700000000000%Z.
Proof.
  assert (@createSlug ascii_runtime (of_ascii "Phone Case") 1700000000000
          = @createSlug ascii_runtime (of_ascii "phone  case!") 1700000000000)
    as Same by reflexivity.
  split; [exact Same |].
  apply (@createSlug_clock_is_recoverable ascii_runtime
           (of_ascii "Phone Case") (of_ascii "phone  case!"));
    [lia | lia | exact Same].
Defined.

Lemma createSlug_without_allowed_characters_witness :
  @createSlug ascii_runtime (of_ascii "!!!???") 1700000000000
  = of_ascii "-1700000000000"
  /\ @createSlug ascii_runtime [] 1700000000000 = of_ascii "-1700000000000".
Proof.
  split.
  - apply (@createSlug_without_allowed_characters ascii_runtime).
    vm_compute. repeat constructor.
  - apply (@createSlug_without_allowed_characters ascii_runtime).
    constructor.
Defined.

(* ================================================================== *)
(** * Further properties of the extracted numbers *)
(* ================================================================== *)

Lemma leb_at_most (n : number) (q : Q) :
  leb n (Num q) = true <-> at_most n q.
Proof.
  destruct n as [| x]; simpl.
  - split; [discriminate | contradiction].
  - apply Qle_bool_iff.
Qed.

Lemma rating_test (r : number) :
  geb r (of_Z 1) && leb r (of_Z 5) = true <-> rating_valid r.
Proof.
  unfold rating_valid.
  change (of_Z 1) with (Num 1%Q). change (of_Z 5) with (Num 5%Q).
  now rewrite andb_true_iff, geb_at_least, leb_at_most.
Qed.

Section NumberProperties.

Context `{Runtime}.
Variable doc : Document.

Lemma rating_loop_valid (selectors : list string) :
  forall rating,
    rating_valid (rating_loop doc selectors rating)
    <-> (exists selector candidate,
            In selector selectors
            /\ rating_candidate doc selector = Some candidate
            /\ rating_valid candidate)
        \/ ((forall selector,
                In selector selectors ->
                rating_candidate doc selector = None)
            /\ rating_valid rating).
Proof.
  induction selectors as [| selector rest IH]; intros rating;
    cbn [rating_loop].
  - split.
    + intros Valid. right. split; [intros ? [] | exact Valid].
    + intros [(? & ? & [] & _) | [_ Valid]]. exact Valid.
  - assert (rating_candidate doc selector = None ->
            (rating_valid (rating_loop doc rest rating)
             <-> (exists s c,
                     In s (selector :: rest)
                     /\ rating_candidate doc s = Some c /\ rating_valid c)
                 \/ ((forall s, In s (selector :: rest) ->
                                rating_candidate doc s = None)
                     /\ rating_valid rating))) as Skip.
    { intros Nothing. rewrite IH. split.
      - intros [(s & c & Member & Rest) | [None_rest Valid]].
        + left. exists s, c. split; [now right | exact Rest].
        + right. split; [| exact Valid].
          intros s [<- | Member]; auto.
      - intros [(s & c & [<- | Member] & Found & Valid) | [None_all Valid]].
        + congruence.
        + left. now exists s, c.
        + right. split; [| exact Valid].
          intros s Member. apply None_all. now right. }
    unfold rating_candidate in Skip at 1.
    destruct (querySelector doc selector) as [el |] eqn:Element;
      [| now apply Skip].
    destruct (regex_search (run_at is_digit_or_dot) (textContent el))
      as [[group after] |] eqn:Match; [| now apply Skip].
    clear Skip. cbv zeta.
    assert (rating_candidate doc selector = Some (parseFloat group))
      as Candidate.
    { unfold rating_candidate. now rewrite Element, Match. }
    destruct (geb (parseFloat group) (of_Z 1)
              && leb (parseFloat group) (of_Z 5)) eqn:Test.
    + apply rating_test in Test. split; [| intros _; exact Test].
      intros _. left. exists selector, (parseFloat group).
      split; [now left | now split].
    + assert (~ rating_valid (parseFloat group)) as Invalid.
      { intros Valid. apply rating_test in Valid. congruence. }
      rewrite IH. split.
      * intros [(s & c & Member & Rest) | [_ Valid]]; [| contradiction].
        left. exists s, c. split; [now right | exact Rest].
      * intros [(s & c & [<- | Member] & Found & Valid) | [None_all _]].
        -- congruence.
        -- left. now exists s, c.
        -- specialize (None_all selector (or_introl eq_refl)). congruence.
Qed.

(** X12. The extracted rating lies between 1 and 5 exactly when one of the
    rating selectors finds an element whose first number lies between 1
    and 5. *)
Theorem extract_rating_valid_iff :
  rating_valid (extract_rating doc)
  <-> exists selector candidate,
        In selector ratingSelectors
        /\ rating_candidate doc selector = Some candidate
        /\ rating_valid candidate.
Proof.
  unfold extract_rating. rewrite rating_loop_valid. split.
  - intros [Found | [_ [Low _]]]; [exact Found |].
    simpl in Low. unfold Qle in Low. simpl in Low. lia.
  - intros Found. now left.
Qed.

End NumberProperties.

(* ================================================================== *)
(** * Further properties of the prices *)
(* ================================================================== *)

Lemma scan_prices_values (els : list Element) :
  forall st,
    scan_prices st els = fold_left price_step (matched_values els) st.
Proof.
  unfold scan_prices, matched_values.
  induction els as [| el rest IH]; intros st; simpl; [reflexivity |].
  rewrite IH. now destruct (price_value (textContent el)).
Qed.

Lemma truthy_nonzero (n : number) : truthy n = true <-> nonzero_number n.
Proof.
  destruct n as [| q]; simpl.
  - split; [discriminate | contradiction].
  - apply truthy_not_zero.
Qed.

Lemma at_most_num_trans (a b c : number) :
  at_most_num a b -> at_most_num b c -> at_most_num a c.
Proof.
  destruct a, b, c; simpl; try contradiction. apply Qle_trans.
Qed.

Lemma not_ltb_at_most (a b : number) :
  nonzero_number a -> nonzero_number b ->
  ltb a b = false -> at_most_num b a.
Proof.
  destruct a as [| x], b as [| y];
    cbn [nonzero_number at_most_num ltb]; try contradiction.
  intros _ _ Not_lower. apply Qnot_lt_le. intros Lower.
  apply Qlt_alt in Lower. unfold Qcompare in Lower, Not_lower.
  now rewrite Lower in Not_lower.
Qed.

Lemma ltb_at_most (a b : number) : ltb a b = true -> at_most_num a b.
Proof.
  intros Lower. apply ltb_less_than in Lower.
  destruct a, b; simpl in *; try contradiction. now apply Qlt_le_weak.
Qed.

Lemma at_most_num_refl (a : number) : nonzero_number a -> at_most_num a a.
Proof.
  destruct a; simpl; [contradiction | intros _; apply Qle_refl].
Qed.

(** Starting from a price, the loop body keeps the smallest value. *)
Lemma fold_price_step_smallest (values : list number) :
  Forall nonzero_number values ->
  forall p o,
    nonzero_number p ->
    exists m,
      fst (fold_left price_step values (Some p, o)) = Some m
      /\ nonzero_number m
      /\ (m = p \/ In m values)
      /\ at_most_num m p
      /\ Forall (at_most_num m) values.
Proof.
  induction 1 as [| value rest Value Rest IH]; intros p o Price;
    cbn [fold_left].
  - exists p. repeat split; auto. now apply at_most_num_refl.
  - assert (truthy p = true) as Truthy by now apply truthy_nonzero.
    assert (price_step (Some p, o) value
            = if ltb value p then (Some value, Some p)
              else if gtb value p then (Some p, Some value)
              else (Some p, o)) as Step.
    { unfold price_step. cbn [truthy_opt to_number].
      now rewrite Truthy. }
    rewrite Step.
    destruct (ltb value p) eqn:Lower.
    + destruct (IH value (Some p) Value)
        as (m & -> & Nonzero & Source & Below & Below_rest).
      exists m. repeat split; auto.
      * right. destruct Source as [-> | Later]; [now left | now right].
      * eapply at_most_num_trans; [exact Below | now apply ltb_at_most].
    + assert (at_most_num p value) as Above
        by now apply not_ltb_at_most.
      destruct (gtb value p).
      * destruct (IH p (Some value) Price)
          as (m & -> & Nonzero & Source & Below & Below_rest).
        exists m. repeat split; auto.
        -- destruct Source as [-> | Later]; [now left | right; now right].
        -- constructor; [| exact Below_rest].
           eapply at_most_num_trans; eauto.
      * destruct (IH p o Price)
          as (m & -> & Nonzero & Source & Below & Below_rest).
        exists m. repeat split; auto.
        -- destruct Source as [-> | Later]; [now left | right; now right].
        -- constructor; [| exact Below_rest].
           eapply at_most_num_trans; eauto.
Qed.

Section SmallestPrice.

Variable doc : Document.

Lemma price_loop_skips (before rest : list string) :
  (forall s, In s before -> matched_values (querySelectorAll doc s) = []) ->
  price_loop doc (before ++ rest) (None, None)
  = price_loop doc rest (None, None).
Proof.
  induction before as [| s before IH]; intros Nothing; simpl;
    [reflexivity |].
  rewrite scan_prices_values, Nothing by now left. simpl.
  apply IH. intros s' Member. apply Nothing. now right.
Qed.

(** X16. When the values of the first price selector with any matching
    text are all numbers other than zero (none of them is NaN, none is
    zero), the extracted price is the smallest of that selector's values;
    the selectors after it play no part. *)
Theorem price_is_smallest_match (before after : list string)
  (selector : string) :
  priceSelectors = before ++ selector :: after ->
  (forall s, In s before -> matched_values (querySelectorAll doc s) = []) ->
  matched_values (querySelectorAll doc selector) <> [] ->
  Forall nonzero_number (matched_values (querySelectorAll doc selector)) ->
  exists p,
    fst (extract_prices doc) = Some p
    /\ In p (matched_values (querySelectorAll doc selector))
    /\ Forall (at_most_num p)
         (matched_values (querySelectorAll doc selector)).
Proof.
  intros Split Nothing Some_match Nonzero.
  unfold extract_prices. rewrite Split, price_loop_skips by exact Nothing.
  cbn [price_loop]. rewrite scan_prices_values.
  destruct (matched_values (querySelectorAll doc selector))
    as [| first rest]; [contradiction |].
  inversion Nonzero as [| ? ? First Rest]; subst.
  change (fold_left price_step (first :: rest) (None, None))
    with (fold_left price_step rest (Some first, None)).
  destruct (@fold_price_step_smallest rest Rest first None First)
    as (m & Price & Nonzero_m & Source & Below & Below_rest).
  rewrite Price. cbn [truthy_opt].
  apply truthy_nonzero in Nonzero_m. rewrite Nonzero_m.
  exists m. repeat split; auto.
  destruct Source as [-> | Later]; [now left | now right].
Qed.

End SmallestPrice.

Lemma price_is_smallest_match_witness :
  exists p,
    fst (extract_prices Examples.discounted_document) = Some p
    /\ In p [Num 250%Q; Num 100%Q]
    /\ Forall (at_most_num p) [Num 250%Q; Num 100%Q].
Proof.
  apply (@price_is_smallest_match Examples.discounted_document []
           [ "div[class*='price']"; "span[class*='price']";
             "div[aria-label*='฿']" ]%string
           "div[class*='pqTWkA']"%string).
  - reflexivity.
  - intros s [].
  - discriminate.
  - repeat constructor; simpl; discriminate.
Defined.

(* ================================================================== *)
(** * Further properties of the extracted texts and images *)
(* ================================================================== *)

Lemma dropWhile_head (p : char16 -> bool) (s : jsstring) (c : char16)
  (rest : jsstring) :
  dropWhile p s = c :: rest -> p c = false.
Proof.
  induction s as [| d s IH]; simpl; [discriminate |].
  destruct (p d) eqn:P; [exact IH |].
  now intros [= <- _].
Qed.

Lemma dropWhile_suffix (p : char16 -> bool) (s : jsstring) :
  exists dropped, s = dropped ++ dropWhile p s.
Proof.
  induction s as [| d s [dropped IH]]; simpl; [now exists [] |].
  destruct (p d); [| now exists []].
  exists (d :: dropped). simpl. now f_equal.
Qed.

Lemma trim_trimmed (s : jsstring) : trimmed (trim s).
Proof.
  unfold trimmed, trim. split.
  - intros c rest First.
    destruct (dropWhile_suffix is_space (rev (dropWhile is_space s)))
      as [dropped Suffix].
    apply (f_equal (@rev char16)) in Suffix.
    rewrite rev_involutive, rev_app_distr, First in Suffix.
    eapply dropWhile_head. exact Suffix.
  - intros front c Last.
    apply (f_equal (@rev char16)) in Last.
    rewrite rev_involutive, rev_app_distr in Last.
    eapply dropWhile_head. exact Last.
Qed.

Lemma nil_trimmed : trimmed [].
Proof.
  split; [discriminate |].
  intros front c Last. now destruct front.
Qed.

Section TextProperties.

Context `{Runtime}.
Variable doc : Document.

Lemma title_loop_cases (selectors : list string) :
  title_loop doc selectors = []
  \/ exists el, title_loop doc selectors = trim (textContent el).
Proof.
  induction selectors as [| selector rest IH]; simpl; [now left |].
  destruct (querySelector doc selector) as [el |]; [| exact IH].
  destruct (nonempty (trim (textContent el))); [| exact IH].
  right. now exists el.
Qed.

Lemma trimmed_text_trimmed (selector : string) :
  trimmed (trimmed_text doc selector).
Proof.
  unfold trimmed_text.
  destruct (querySelector doc selector);
    [apply trim_trimmed | apply nil_trimmed].
Qed.

(** X17. The extracted title, shop name and category neither start nor
    end with white space. *)
Theorem extracted_texts_are_trimmed :
  trimmed (ProductData.title (evaluateProductData doc))
  /\ trimmed (ProductData.shopName (evaluateProductData doc))
  /\ trimmed (ProductData.category (evaluateProductData doc)).
Proof.
  cbn [evaluateProductData ProductData.title ProductData.shopName
       ProductData.category].
  repeat split; try apply trimmed_text_trimmed.
  - destruct (title_loop_cases titleSelectors) as [-> | (el & ->)].
    + apply nil_trimmed.
    + apply trim_trimmed.
  - destruct (title_loop_cases titleSelectors) as [-> | (el & ->)].
    + apply nil_trimmed.
    + apply trim_trimmed.
Qed.

Lemma title_loop_skips (before rest : list string) :
  (forall s, In s before -> blank_at doc s) ->
  title_loop doc (before ++ rest) = title_loop doc rest.
Proof.
  induction before as [| s before IH]; intros Blank; simpl; [reflexivity |].
  assert (blank_at doc s) as Here by (apply Blank; now left).
  unfold blank_at in Here.
  destruct (querySelector doc s) as [el |].
  - rewrite Here. simpl. apply IH. intros s' Member. apply Blank. now right.
  - apply IH. intros s' Member. apply Blank. now right.
Qed.

(** X18. The title is the trimmed text of the first title selector, in
    the order of the list, whose element has text that is not blank;
    selectors after it are not consulted. *)
Theorem title_is_first_match (before after : list string)
  (selector : string) (el : Element) :
  titleSelectors = before ++ selector :: after ->
  (forall s, In s before -> blank_at doc s) ->
  querySelector doc selector = Some el ->
  trim (textContent el) <> [] ->
  ProductData.title (evaluateProductData doc) = trim (textContent el).
Proof.
  intros Split Blank Element Text.
  cbn [evaluateProductData ProductData.title].
  rewrite Split, title_loop_skips by exact Blank.
  simpl. rewrite Element.
  destruct (trim (textContent el)); [contradiction | reflexivity].
Qed.

Lemma description_loop_cases (selectors : list string) :
  forall description,
    description_loop doc selectors description = description
    \/ exists el,
         description_loop doc selectors description
         = substring0 500 (trim (textContent el)).
Proof.
  induction selectors as [| selector rest IH]; intros description;
    cbn [description_loop]; [now left |].
  destruct (querySelector doc selector) as [el |]; [| apply IH].
  cbv zeta.
  destruct (nonempty (substring0 500 (trim (textContent el)))).
  - right. now exists el.
  - right.
    destruct (IH (substring0 500 (trim (textContent el))))
      as [-> | Later]; [now exists el | exact Later].
Qed.

(** X19. The extracted description has at most 500 code units and does
    not start with white space. *)
Theorem extracted_description_bounds :
  (length (ProductData.description (evaluateProductData doc)) <= 500)%nat
  /\ forall c rest,
       ProductData.description (evaluateProductData doc) = c :: rest ->
       is_space c = false.
Proof.
  cbn [evaluateProductData ProductData.description].
  destruct (description_loop_cases descSelectors []) as [-> | (el & ->)].
  - split; [simpl; lia | discriminate].
  - unfold substring0. split; [apply firstn_le_length |].
    intros c rest First.
    destruct (trim (textContent el)) as [| d text] eqn:Trim;
      [discriminate First |].
    simpl in First. injection First as <- _.
    pose proof (trim_trimmed (textContent el)) as [Head _].
    rewrite Trim in Head. now apply (Head d text).
Qed.

Lemma image_ok_hosted (s : jsstring) :
  image_ok (Some s) = true -> s <> [] /\ shopee_hosted s.
Proof.
  unfold image_ok, shopee_hosted. intros Ok.
  apply andb_true_iff in Ok as [Filled Hosted].
  apply orb_true_iff in Hosted.
  split; [now destruct s | exact Hosted].
Qed.

Lemma thumbnail_ok_hosted (s : jsstring) :
  thumbnail_ok (Some s) = true -> shopee_hosted s.
Proof.
  unfold thumbnail_ok, shopee_hosted. intros Ok.
  apply orb_true_iff in Ok as [Ok | Ok]; [left | now right].
  now apply andb_true_iff in Ok.
Qed.

Lemma thumbnail_loop_cases (selectors : list string) :
  thumbnail_loop doc selectors = []
  \/ shopee_hosted (thumbnail_loop doc selectors).
Proof.
  induction selectors as [| selector rest IH]; cbn [thumbnail_loop];
    [now left |].
  destruct (querySelector doc selector) as [el |]; [| exact IH].
  destruct (image_src el) as [s |]; [| exact IH].
  destruct (thumbnail_ok (Some s)) eqn:Ok; [| exact IH].
  right. now apply thumbnail_ok_hosted.
Qed.

Lemma set_spread_NoDup (xs : list jsstring) : NoDup (set_spread xs).
Proof.
  apply (distinct_from_NoDup (fun _ => NavigationFails)).
Qed.

(** X20. The record carries at most five image URLs, no two of them
    equal, each of them non-empty and containing ['shopee'] or
    ['susercontent']; the thumbnail URL is empty or contains one of the
    two. *)
Theorem extracted_images :
  (length (ProductData.imageUrls (evaluateProductData doc)) <= 5)%nat
  /\ NoDup (ProductData.imageUrls (evaluateProductData doc))
  /\ (forall s,
         In s (ProductData.imageUrls (evaluateProductData doc)) ->
         s <> [] /\ shopee_hosted s)
  /\ (ProductData.thumbnailUrl (evaluateProductData doc) = []
      \/ shopee_hosted (ProductData.thumbnailUrl (evaluateProductData doc))).
Proof.
  cbn [evaluateProductData ProductData.imageUrls ProductData.thumbnailUrl].
  split; [apply firstn_le_length |].
  split; [apply firstn_NoDup, set_spread_NoDup |].
  split; [| apply thumbnail_loop_cases].
  intros s Member. apply firstn_incl in Member.
  apply (proj1 (set_spread_In (fun _ => NavigationFails) _ _)) in Member.
  unfold extract_imageUrls in Member.
  apply in_flat_map in Member as (img & _ & Pushed).
  destruct (image_src img) as [src |]; [| contradiction].
  destruct (image_ok (Some src)) eqn:Ok; [| contradiction].
  destruct Pushed as [<- | []]. now apply image_ok_hosted.
Qed.

End TextProperties.

Lemma title_is_first_match_witness :
  ProductData.title
    (@evaluateProductData ascii_runtime Examples.discounted_document)
  = of_ascii "Phone Case".
Proof.
  apply (@title_is_first_match ascii_runtime Examples.discounted_document
           [ "div[class*='product-title']"; "h1[class*='title']";
             "span[class*='VhWBwF']"; ".product-info span";
             "div[data-sqe='name']" ]%string
           [] "h1"%string (Examples.text_element "Phone Case")).
  - reflexivity.
  - intros s Member. simpl in Member.
    repeat (destruct Member as [<- | Member]; [exact I |]).
    contradiction.
  - reflexivity.
  - discriminate.
Defined.

(* ================================================================== *)
(** * Further properties: what a run depends on *)
(* ================================================================== *)

Section DiscoveryCongruence.

Variables browse1 browse2 : jsstring -> Listing.

Lemma visit_by_yield (browse : jsstring -> Listing)
  (productUrls : list jsstring) (entry : EntryPoint) :
  visit browse productUrls entry
  = productUrls
    ++ filter (fun u => negb (array_includes productUrls u))
         (set_spread (matching_urls browse entry)).
Proof.
  unfold visit, matching_urls.
  destruct (browse (url entry)); simpl; try reflexivity.
  now rewrite app_nil_r.
Qed.

Lemma discoverLoop_by_yield (maxProducts : Z) (entries : list EntryPoint) :
  (forall entry,
      In entry entries ->
      matching_urls browse1 entry = matching_urls browse2 entry) ->
  forall productUrls,
    discoverLoop browse1 maxProducts entries productUrls
    = discoverLoop browse2 maxProducts entries productUrls.
Proof.
  induction entries as [| entry rest IH]; intros Same productUrls;
    cbn [discoverLoop]; [reflexivity |].
  destruct (Z.of_nat (length productUrls) >=? maxProducts)%Z;
    [reflexivity |].
  rewrite (visit_by_yield browse1), (visit_by_yield browse2).
  rewrite Same by now left.
  rewrite IH; [reflexivity |].
  intros e Member. apply Same. now right.
Qed.

(** X22. A run of [getProductUrls] depends on the listing pages only
    through the product links they yield: a page that fails to load, a
    page whose script fails and a page without product links have the same
    effect, and anchors that are no product links have none. *)
Theorem getProductUrls_depends_on_yield (maxProducts : Z) :
  (forall entry,
      In entry urlsToTry ->
      matching_urls browse1 entry = matching_urls browse2 entry) ->
  getProductUrls browse1 maxProducts = getProductUrls browse2 maxProducts
  /\ visitedEntries browse1 maxProducts = visitedEntries browse2 maxProducts.
Proof.
  intros Same. unfold getProductUrls, visitedEntries.
  now rewrite (discoverLoop_by_yield maxProducts urlsToTry Same).
Qed.

End DiscoveryCongruence.

Lemma getProductUrls_depends_on_yield_witness :
  getProductUrls Examples.busy_listing 10
  = getProductUrls Examples.busy_listing_without_failures 10
  /\ visitedEntries Examples.busy_listing 10
     = visitedEntries Examples.busy_listing_without_failures 10.
Proof.
  apply (@getProductUrls_depends_on_yield Examples.busy_listing
           Examples.busy_listing_without_failures 10).
  intros entry Member. unfold urlsToTry in Member. simpl in Member.
  repeat (destruct Member as [<- | Member]; [vm_compute; reflexivity |]).
  contradiction.
Defined.

(* ================================================================== *)
(** * Numbers of ordinary size *)
(* ================================================================== *)

(** The texts of a product page are short, and the numbers read from
    short texts stay far inside the range of the doubles. *)

Lemma digit_value_small (c : char16) :
  is_digit c = true -> (digit_value c <= 9)%N.
Proof.
  unfold is_digit, in_range, digit_value. intros Digit.
  apply andb_true_iff in Digit as [Low High].
  apply N.leb_le in Low, High. lia.
Qed.

Lemma fold_digits_below (ds : jsstring) :
  Forall (fun c => is_digit c = true) ds ->
  forall acc,
    (fold_left (fun acc c => 10 * acc + digit_value c) ds acc
     < (acc + 1) * 10 ^ N.of_nat (length ds))%N.
Proof.
  induction 1 as [| c ds Digit Digits IH]; intros acc.
  - simpl. lia.
  - cbn [fold_left length]. specialize (IH (10 * acc + digit_value c)%N).
    rewrite Nat2N.inj_succ, N.pow_succ_r'.
    apply digit_value_small in Digit.
    set (P := (10 ^ N.of_nat (length ds))%N) in *. nia.
Qed.

Lemma digits_value_below (ds : jsstring) :
  Forall (fun c => is_digit c = true) ds ->
  (Z.of_N (digits_value ds) < 10 ^ Z.of_nat (length ds))%Z.
Proof.
  intros Digits. apply fold_digits_below with (acc := 0%N) in Digits.
  unfold digits_value.
  apply N2Z.inj_lt in Digits.
  rewrite N.add_0_l, N.mul_1_l, N2Z.inj_pow, nat_N_Z in Digits.
  exact Digits.
Qed.

Lemma scale_as_Z (n : nat) :
  Z.pos (N.succ_pos (N.pred (10 ^ N.of_nat n)))
  = (10 ^ Z.of_nat n)%Z.
Proof.
  assert (10 ^ N.of_nat n <> 0)%N as Positive by (apply N.pow_nonzero; lia).
  change (Z.pos (N.succ_pos (N.pred (10 ^ N.of_nat n))))
    with (Z.of_N (N.pos (N.succ_pos (N.pred (10 ^ N.of_nat n))))).
  rewrite N.succ_pos_spec, N.succ_pred by exact Positive.
  now rewrite N2Z.inj_pow, nat_N_Z.
Qed.

Lemma below_weaken (n : number) (b b' : Z) :
  below n b -> (b <= b')%Z -> below n b'.
Proof.
  destruct n as [| q]; simpl; [trivial |].
  intros [Low High] Le. split; [exact Low |].
  eapply Qlt_le_trans; [exact High |].
  now rewrite <- Zle_Qle.
Qed.

Lemma decimal_below (int_part frac_part : jsstring) :
  Forall (fun c => is_digit c = true) int_part ->
  Forall (fun c => is_digit c = true) frac_part ->
  below
    (Num (Qmake
            (Z.of_N (digits_value int_part
                     * 10 ^ N.of_nat (length frac_part)
                     + digits_value frac_part))
            (N.succ_pos (N.pred (10 ^ N.of_nat (length frac_part))))))
    (10 ^ Z.of_nat (length int_part)).
Proof.
  intros Int Frac. simpl. unfold Qle, Qlt. cbn [Qnum Qden inject_Z].
  rewrite scale_as_Z.
  apply digits_value_below in Int, Frac.
  rewrite N2Z.inj_add, N2Z.inj_mul, N2Z.inj_pow, nat_N_Z.
  pose proof (N2Z.is_nonneg (digits_value int_part)) as Int0.
  pose proof (N2Z.is_nonneg (digits_value frac_part)) as Frac0.
  set (I := Z.of_N (digits_value int_part)) in *.
  set (F := Z.of_N (digits_value frac_part)) in *.
  set (S := (10 ^ Z.of_nat (length frac_part))%Z) in *.
  set (B := (10 ^ Z.of_nat (length int_part))%Z) in *.
  split; nia.
Qed.

Lemma parseFloat_below (s : jsstring) :
  below (parseFloat s) (10 ^ Z.of_nat (length s)).
Proof.
  unfold parseFloat.
  pose proof (span_split is_digit s) as Split.
  pose proof (span_fst_all is_digit s) as Int.
  destruct (span is_digit s) as [int_part rest]. cbn [fst snd] in *.
  set (frac_part := match rest with
                    | [] => []
                    | c :: rest' =>
                        if (c =? dot)%N then fst (span is_digit rest') else []
                    end).
  assert (Forall (fun c => is_digit c = true) frac_part) as Frac.
  { unfold frac_part. destruct rest as [| c rest']; [constructor |].
    destruct (c =? dot)%N; [apply span_fst_all | constructor]. }
  assert (below
            (Num (Qmake
                    (Z.of_N (digits_value int_part
                             * 10 ^ N.of_nat (length frac_part)
                             + digits_value frac_part))
                    (N.succ_pos (N.pred (10 ^ N.of_nat (length frac_part))))))
            (10 ^ Z.of_nat (length s))) as Value.
  { eapply below_weaken; [now apply decimal_below |].
    apply Z.pow_le_mono_r; [lia |].
    rewrite Split, length_app. lia. }
  destruct int_part, frac_part; try exact Value. exact I.
Qed.

Lemma mul_below (a : number) (b k : Z) :
  below a b -> (0 < k)%Z -> below (mul a (of_Z k)) (b * k).
Proof.
  destruct a as [| q]; simpl; [trivial |].
  intros [Low High] Positive. split.
  - apply Qmult_le_0_compat; [exact Low |].
    change 0%Q with (inject_Z 0). rewrite <- Zle_Qle. lia.
  - rewrite inject_Z_mult. apply Qmult_lt_compat_r; [| exact High].
    change 0%Q with (inject_Z 0). now rewrite <- Zlt_Qlt.
Qed.

Lemma scaled_below (scale : bool) (a : number) (b k : Z) :
  below a b -> (0 <= b)%Z -> (1 <= k)%Z ->
  below (if scale then mul a (of_Z k) else a) (b * k).
Proof.
  intros Below Bound Factor. destruct scale.
  - apply mul_below; [exact Below | lia].
  - eapply below_weaken; [exact Below | nia].
Qed.

Lemma Math_round_below (a : number) (b : Z) :
  below a b ->
  Math_round a = NaN
  \/ exists z, (0 <= z <= b)%Z /\ Math_round a = of_Z z.
Proof.
  destruct a as [| q]; [now left |].
  intros [Low High]. right.
  exists (Qfloor (q + (1 # 2))). split; [| reflexivity]. split.
  - change 0%Z with (Qfloor 0). apply Qfloor_resp_le.
    apply Qle_trans with q; [exact Low |].
    rewrite <- (Qplus_0_r q) at 1. apply Qplus_le_r. easy.
  - assert (Qfloor (q + (1 # 2)) < b + 1)%Z; [| lia].
    rewrite Zlt_Qlt.
    eapply Qle_lt_trans; [apply Qfloor_le |].
    rewrite inject_Z_plus.
    apply Qplus_lt_le_compat; [exact High | easy].
Qed.

Lemma keep_length (p : char16 -> bool) (s : jsstring) :
  (length (keep p s) <= length s)%nat.
Proof.
  unfold keep. apply filter_length_le.
Qed.

Lemma span_lengths (p : char16 -> bool) (s : jsstring) :
  (length (fst (span p s)) + length (snd (span p s)) = length s)%nat.
Proof.
  rewrite (span_split p s) at 3. now rewrite length_app.
Qed.

Lemma dropWhile_length (p : char16 -> bool) (s : jsstring) :
  (length (dropWhile p s) <= length s)%nat.
Proof.
  induction s as [| c s IH]; simpl; [lia |].
  destruct (p c); simpl; lia.
Qed.

Lemma search_length {A} (try_at : jsstring -> option A)
  (size : A -> nat) :
  (forall s r, try_at s = Some r -> (size r <= length s)%nat) ->
  forall text r,
    regex_search try_at text = Some r -> (size r <= length text)%nat.
Proof.
  intros Local text r Found.
  apply regex_search_found in Found as (before & rest & -> & Attempt).
  apply Local in Attempt. rewrite length_app. lia.
Qed.

Lemma run_at_length (p : char16 -> bool) (s group after : jsstring) :
  run_at p s = Some (group, after) -> (length group <= length s)%nat.
Proof.
  unfold run_at. pose proof (span_lengths p s) as Lengths.
  destruct (span p s) as [[| c run] rest]; [discriminate |].
  intros [= <- <-]. simpl in *. lia.
Qed.

Lemma price_at_length (s group : jsstring) :
  price_at s = Some group -> (length group <= length s)%nat.
Proof.
  unfold price_at.
  set (after_sign := match s with
                     | [] => s
                     | c :: s' => if (c =? baht)%N then s' else s
                     end).
  assert (length after_sign <= length s)%nat as Sign.
  { unfold after_sign. destruct s as [| c s']; [lia |].
    destruct (c =? baht)%N; simpl; lia. }
  pose proof (dropWhile_length is_space after_sign) as Spaces.
  pose proof (span_lengths is_digit_or_comma (dropWhile is_space after_sign))
    as Lengths.
  destruct (span is_digit_or_comma (dropWhile is_space after_sign))
    as [[| d run] rest]; [discriminate |].
  cbn [fst snd] in Lengths.
  destruct rest as [| c [| d1 [| d2 rest]]];
    try (intros [= <-]; simpl in *; lia).
  destruct ((c =? dot)%N && is_digit d1 && is_digit d2);
    intros [= <-]; simpl in *; try rewrite length_app; simpl; lia.
Qed.

Lemma sold_at_length (s group : jsstring) (unit : option jsstring) :
  sold_at s = Some (group, unit) -> (length group <= length s)%nat.
Proof.
  unfold sold_at.
  destruct (run_at is_count_char s) as [[run rest] |] eqn:Run;
    [| discriminate].
  intros [= <- _]. eapply run_at_length, Run.
Qed.

Lemma percent_at_shape (s ds : jsstring) :
  percent_at s = Some ds ->
  ds <> [] /\ Forall (fun c => is_digit c = true) ds
  /\ (length ds <= length s)%nat.
Proof.
  unfold percent_at.
  destruct (digits_at s) as [[run [| c rest]] |] eqn:Digits;
    try discriminate.
  destruct (c =? percent)%N; [| discriminate].
  intros [= <-].
  pose proof (digits_at_shape _ Digits) as [Some_digit All].
  repeat split; auto.
  unfold digits_at in Digits. pose proof (span_lengths is_digit s) as Lengths.
  destruct (span is_digit s) as [[| d run'] rest']; [discriminate |].
  injection Digits as Run Rest. rewrite <- Run. simpl in *. lia.
Qed.

(** A number read from a text of at most 256 code units is below
    10^256. *)
Lemma short_parse_below (text group : jsstring) :
  (length group <= length text)%nat -> (length text <= 256)%nat ->
  below (parseFloat (keep not_comma group)) (10 ^ 256).
Proof.
  intros Inside Short.
  eapply below_weaken; [apply parseFloat_below |].
  apply Z.pow_le_mono_r; [lia |].
  pose proof (keep_length not_comma group). lia.
Qed.

Lemma rounded_ordinary (a : number) (b : Z) :
  below a b -> (b < 10 ^ 300)%Z -> ordinary_count (Math_round a).
Proof.
  intros Below Bound.
  destruct (Math_round_below _ _ Below) as [-> | (z & Range & ->)];
    [now left | right].
  exists z. split; [lia | reflexivity].
Qed.

Lemma zero_is_ordinary : ordinary_count (of_Z 0).
Proof.
  right. exists 0%Z. split; [| reflexivity].
  split; [lia | apply Z.pow_pos_nonneg; lia].
Qed.

Lemma span_all (p : char16 -> bool) (s : jsstring) :
  Forall (fun c => p c = true) s -> span p s = (s, []).
Proof.
  induction 1 as [| c s Head Tail IH]; simpl; [reflexivity |].
  now rewrite Head, IH.
Qed.

Lemma parseInt_ordinary (ds : jsstring) :
  ds <> [] -> Forall (fun c => is_digit c = true) ds ->
  (length ds <= 256)%nat ->
  ordinary_integer (parseInt ds).
Proof.
  intros Some_digit Digits Short. unfold parseInt.
  rewrite (span_all is_digit Digits). cbn [fst].
  destruct ds as [| d ds']; [contradiction |].
  exists (Z.of_N (digits_value (d :: ds'))). split; [| reflexivity].
  split; [lia |].
  eapply Z.lt_le_trans; [now apply digits_value_below |].
  apply Z.pow_le_mono_r; lia.
Qed.

Section OrdinaryNumbers.

Context `{Runtime}.
Variable doc : Document.

Lemma first_is_found (selector : string) (el : Element) :
  querySelector doc selector = Some el ->
  In el (querySelectorAll doc selector).
Proof.
  unfold querySelector.
  destruct (querySelectorAll doc selector); simpl; [discriminate |].
  intros [= ->]. now left.
Qed.

Lemma short_texts_tail (selector : string) (rest : list string) :
  short_texts doc (selector :: rest) -> short_texts doc rest.
Proof.
  intros Short s el Member. apply Short. now right.
Qed.

Lemma short_first (selector : string) (rest : list string) (el : Element) :
  short_texts doc (selector :: rest) ->
  querySelector doc selector = Some el ->
  (length (textContent el) <= 256)%nat.
Proof.
  intros Short First. apply (Short selector); [now left |].
  now apply first_is_found.
Qed.

Lemma review_loop_ordinary (selectors : list string) :
  short_texts doc selectors ->
  forall reviewCount,
    ordinary_count reviewCount ->
    ordinary_count (review_loop doc selectors reviewCount).
Proof.
  induction selectors as [| selector rest IH]; intros Short reviewCount Count;
    cbn [review_loop]; [exact Count |].
  pose proof (short_texts_tail Short) as Short_rest.
  destruct (querySelector doc selector) as [el |] eqn:First;
    [| now apply IH].
  pose proof (short_first Short First) as Short_text.
  destruct (regex_search _ _) as [[group after] |] eqn:Found;
    [| now apply IH].
  cbv zeta.
  apply (@search_length _ _ (fun r => length (fst r))) in Found;
    [| intros s [g a]; apply run_at_length].
  cbn [fst] in Found.
  match goal with
  | |- context [Math_round ?count] =>
      assert (ordinary_count (Math_round count)) as Rounded
  end.
  { eapply rounded_ordinary.
    - apply scaled_below;
        [eapply short_parse_below; eassumption | | ];
        [apply Z.pow_nonneg; lia | lia].
    - vm_compute. reflexivity. }
  destruct (gtb _ _); [exact Rounded | now apply IH].
Qed.

Lemma sold_loop_ordinary (selectors : list string) :
  short_texts doc selectors ->
  forall soldCount,
    ordinary_count soldCount ->
    ordinary_count (sold_loop doc selectors soldCount).
Proof.
  induction selectors as [| selector rest IH]; intros Short soldCount Count;
    cbn [sold_loop]; [exact Count |].
  pose proof (short_texts_tail Short) as Short_rest.
  destruct (querySelector doc selector) as [el |] eqn:First;
    [| now apply IH].
  pose proof (short_first Short First) as Short_text.
  destruct (regex_search _ _) as [[group unit] |] eqn:Found;
    [| now apply IH].
  cbv zeta.
  apply (@search_length _ _ (fun r => length (fst r))) in Found;
    [| intros s [g u]; apply sold_at_length].
  cbn [fst] in Found.
  match goal with
  | |- context [Math_round ?count] =>
      assert (ordinary_count (Math_round count)) as Rounded
  end.
  { eapply rounded_ordinary.
    - apply scaled_below; [| | lia].
      + apply scaled_below; [| | lia].
        * apply scaled_below;
            [eapply short_parse_below; eassumption | | lia].
          apply Z.pow_nonneg; lia.
        * vm_compute. discriminate.
      + vm_compute. discriminate.
    - vm_compute. reflexivity. }
  destruct (gtb _ _); [exact Rounded | now apply IH].
Qed.

End OrdinaryNumbers.

(** The loop body of the prices hands on what holds of every value it is
    given. *)
Lemma price_step_keeps (P : number -> Prop)
  (st : option number * option number) (value : number) :
  P value ->
  (forall v, fst st = Some v \/ snd st = Some v -> P v) ->
  forall v,
    fst (price_step st value) = Some v \/ snd (price_step st value) = Some v ->
    P v.
Proof.
  destruct st as [price originalPrice]. intros Value Inv v.
  unfold price_step. simpl in Inv.
  destruct (negb (truthy_opt price) || ltb value (to_number price)).
  - simpl. destruct (truthy_opt price);
      intros [[= <-] | Original]; auto.
  - destruct (gtb value (to_number price)); simpl;
      intros [Price | Original]; auto.
    now injection Original as <-.
Qed.

Lemma fold_price_step_keeps (P : number -> Prop) (values : list number) :
  Forall P values ->
  forall st,
    (forall v, fst st = Some v \/ snd st = Some v -> P v) ->
    forall v,
      fst (fold_left price_step values st) = Some v
      \/ snd (fold_left price_step values st) = Some v ->
      P v.
Proof.
  induction 1 as [| value rest Value Values IH]; intros st Inv; simpl;
    [exact Inv |].
  apply IH. now apply price_step_keeps.
Qed.

Lemma price_value_below (text : jsstring) (value : number) :
  (length text <= 256)%nat ->
  price_value text = Some value -> below value (10 ^ 256).
Proof.
  intros Short. unfold price_value.
  destruct (regex_search price_at text) as [group |] eqn:Found;
    [| discriminate].
  intros [= <-].
  apply (@search_length _ _ (@length char16)) in Found;
    [| apply price_at_length].
  eapply short_parse_below; eassumption.
Qed.

Lemma matched_values_below (els : list Element) :
  (forall el, In el els -> (length (textContent el) <= 256)%nat) ->
  Forall (fun value => below value (10 ^ 256)) (matched_values els).
Proof.
  intros Short. unfold matched_values. apply Forall_forall.
  intros value Member.
  apply in_flat_map in Member as (el & Element & Value).
  destruct (price_value (textContent el)) as [v |] eqn:Parsed;
    [| contradiction].
  destruct Value as [<- | []].
  eapply price_value_below; [| exact Parsed]. now apply Short.
Qed.

Lemma price_loop_short (doc : Document) (selectors : list string) :
  short_texts doc selectors ->
  forall st,
    (forall v, fst st = Some v \/ snd st = Some v -> below v (10 ^ 256)) ->
    forall v,
      fst (price_loop doc selectors st) = Some v
      \/ snd (price_loop doc selectors st) = Some v ->
      below v (10 ^ 256).
Proof.
  induction selectors as [| selector rest IH]; intros Short st Inv;
    cbn [price_loop]; [exact Inv |].
  cbv zeta.
  assert (forall v,
             fst (scan_prices st (querySelectorAll doc selector)) = Some v
             \/ snd (scan_prices st (querySelectorAll doc selector)) = Some v ->
             below v (10 ^ 256)) as Inv'.
  { rewrite scan_prices_values.
    apply fold_price_step_keeps; [| exact Inv].
    apply matched_values_below. intros el Element.
    apply (Short selector); [now left | exact Element]. }
  destruct (truthy_opt (fst (scan_prices st _))); [exact Inv' |].
  apply IH; [| exact Inv'].
  intros s el Member. apply Short. now right.
Qed.

Lemma extract_prices_below (doc : Document) (v : number) :
  short_texts doc priceSelectors ->
  fst (extract_prices doc) = Some v \/ snd (extract_prices doc) = Some v ->
  below v (10 ^ 256).
Proof.
  intros Short. apply price_loop_short; [exact Short |].
  simpl. intros ? [E | E]; discriminate E.
Qed.

Lemma truthy_below_positive (n : number) (b : Z) :
  truthy n = true -> below n b ->
  exists q, n = Num q /\ (0 < q)%Q /\ (q < inject_Z b)%Q.
Proof.
  destruct n as [| q]; [discriminate |].
  intros Truthy [Low High]. exists q. split; [reflexivity |].
  split; [| exact High].
  apply truthy_not_zero in Truthy.
  apply Qle_lt_or_eq in Low as [Positive | Zero]; [exact Positive |].
  exfalso. apply Truthy. now symmetry.
Qed.

(** The two prices of the record, from a price the script found below
    10^256. *)
Lemma prices_of_source (price : option number) :
  (forall v, price = Some v -> below v (10 ^ 256)) ->
  below (price_or_zero price) (10 ^ 300)
  /\ price_or_zero price <> NaN
  /\ (convert_price price = None <-> is_zero (price_or_zero price) = true)
  /\ (forall converted,
         convert_price price = Some converted -> ordinary_integer converted).
Proof.
  assert (below (of_Z 0) (10 ^ 300)) as Zero.
  { split; [apply Qle_refl |].
    change 0%Q with (inject_Z 0). rewrite <- Zlt_Qlt.
    apply Z.pow_pos_nonneg; lia. }
  assert (10 ^ 256 <= 10 ^ 300)%Z as Wider
    by (apply Z.pow_le_mono_r; lia).
  intros Bound. unfold price_or_zero, convert_price.
  destruct price as [n |].
  - specialize (Bound n eq_refl).
    destruct (truthy n) eqn:Truthy.
    + destruct (@truthy_below_positive n _ Truthy Bound)
        as (q & -> & Positive & High).
      split; [exact (@below_weaken _ _ _ Bound Wider) |].
      split; [discriminate |]. split.
      * simpl in Truthy. apply negb_true_iff in Truthy.
        unfold is_zero. rewrite Truthy. split; discriminate.
      * intros converted Converted.
        assert (converted = Math_round (mul (Num q) (of_Z 40))) as ->
          by (injection Converted as <-; reflexivity).
        assert (below (mul (Num q) (of_Z 40)) (10 ^ 256 * 40)) as Scaled
          by (apply mul_below; [exact Bound | lia]).
        destruct (@Math_round_below _ _ Scaled) as [Nan | (z & Range & ->)];
          [discriminate Nan |].
        exists z. split; [| reflexivity].
        split; [lia |].
        apply Z.le_lt_trans with (10 ^ 256 * 40)%Z; [lia |].
        vm_compute. reflexivity.
    + split; [exact Zero |]. split; [discriminate |]. split.
      * split; reflexivity.
      * discriminate.
  - split; [exact Zero |]. split; [discriminate |]. split.
    + split; reflexivity.
    + discriminate.
Qed.

Section OrdinaryRecord.

Context `{Runtime}.
Variable doc : Document.

(** X11. On a page whose review-count and sold-count elements have texts
    of at most 256 code units, the review count and the sold count the
    script extracts are each NaN or an integer from 0 up to, not
    including, 10^300. *)
Theorem extracted_counts_ordinary :
  short_texts doc reviewSelectors ->
  short_texts doc soldSelectors ->
  ordinary_count (extract_reviewCount doc)
  /\ ordinary_count (extract_soldCount doc).
Proof.
  intros Reviews Sold. split.
  - apply review_loop_ordinary; [exact Reviews | apply zero_is_ordinary].
  - apply sold_loop_ordinary; [exact Sold | apply zero_is_ordinary].
Qed.

(** X13. On a page whose discount elements have texts of at most 256
    code units, the extracted discount percentage is null or an integer
    from 0 up to, not including, 10^300; it is never NaN. *)
Theorem extract_discountPercent_ordinary :
  short_texts doc ["div[class*='percent'], span[class*='discount']"%string] ->
  extract_discountPercent doc = None
  \/ exists n,
       extract_discountPercent doc = Some n /\ ordinary_integer n.
Proof.
  intros Short. unfold extract_discountPercent.
  destruct (querySelector doc _) as [discountEl |] eqn:First; [| now left].
  pose proof (short_first Short First) as Short_text.
  destruct (regex_search percent_at (textContent discountEl))
    as [group |] eqn:Found; [| now left].
  right. exists (parseInt group). split; [reflexivity |].
  apply regex_search_found in Found as (before & rest & Text & Attempt).
  apply percent_at_shape in Attempt as (Some_digit & Digits & Inside).
  apply parseInt_ordinary; [exact Some_digit | exact Digits |].
  rewrite Text, length_app in Short_text. lia.
Qed.

(** X15. In the row built for a product extracted from a loaded page
    whose price elements have texts of at most 256 code units, the source
    price is a number from 0 up to, not including, 10^300 (never NaN or
    null); the converted price is null exactly when the source price is
    zero, and otherwise is an integer from 0 up to, not including,
    10^300. *)
Theorem stored_prices_ordinary (url : jsstring) (slug_clock crawl_clock : Z)
  (product : ShopeeProduct.t) :
  short_texts doc priceSelectors ->
  extractProductDetails (PageLoaded doc slug_clock crawl_clock) url
  = Some product ->
  below (ProductInsert.original_price (productInsert product)) (10 ^ 300)
  /\ ProductInsert.original_price (productInsert product) <> NaN
  /\ (ProductInsert.price_krw (productInsert product) = None
      <-> is_zero (ProductInsert.original_price (productInsert product))
          = true)
  /\ (forall converted,
         ProductInsert.price_krw (productInsert product) = Some converted ->
         ordinary_integer converted).
Proof.
  intros Short. unfold extractProductDetails, normalize.
  destruct (_ || _); [discriminate |].
  intros [= <-]. unfold productInsert.
  cbn -[convert_price price_or_zero is_zero ordinary_integer extract_prices
        below Z.pow].
  apply prices_of_source. intros v Price.
  apply (@extract_prices_below doc v Short). now left.
Qed.

End OrdinaryRecord.

(** The texts the selectors find on an example page are short: each
    selector of the list is looked up and each text measured. *)
Ltac measure_texts :=
  let Member := fresh "Member" in
  let Found := fresh "Found" in
  intros ? ? Member Found;
  repeat (destruct Member as [<- | Member];
          [vm_compute in Found;
           repeat (destruct Found as [<- | Found];
                   [apply Nat.leb_le; vm_compute; reflexivity |]);
           contradiction |]);
  contradiction.

Lemma extracted_counts_ordinary_witness :
  @extract_reviewCount ascii_runtime Examples.counted_document = of_Z 1500
  /\ @extract_soldCount ascii_runtime Examples.counted_document = of_Z 2500
  /\ ordinary_count
       (@extract_reviewCount ascii_runtime Examples.counted_document)
  /\ ordinary_count
       (@extract_soldCount ascii_runtime Examples.counted_document).
Proof.
  split; [vm_compute; reflexivity |].
  split; [vm_compute; reflexivity |].
  apply (@extracted_counts_ordinary ascii_runtime Examples.counted_document);
    measure_texts.
Defined.

Lemma extract_discountPercent_ordinary_witness :
  extract_discountPercent Examples.counted_document = Some (of_Z 60)
  /\ (extract_discountPercent Examples.counted_document = None
      \/ exists n,
           extract_discountPercent Examples.counted_document = Some n
           /\ ordinary_integer n).
Proof.
  split; [vm_compute; reflexivity |].
  apply (@extract_discountPercent_ordinary Examples.counted_document).
  measure_texts.
Defined.

Lemma stored_prices_ordinary_witness :
  exists product,
    @extractProductDetails ascii_runtime
      (PageLoaded Examples.counted_document 1700000000000 1700000000001)
      Examples.product_url = Some product
    /\ ProductInsert.original_price (productInsert product) = of_Z 100
    /\ ProductInsert.price_krw (productInsert product) = Some (of_Z 4000)
    /\ below (ProductInsert.original_price (productInsert product))
         (10 ^ 300)
    /\ forall converted,
         ProductInsert.price_krw (productInsert product) = Some converted ->
         ordinary_integer converted.
Proof.
  destruct (@extractProductDetails ascii_runtime
              (PageLoaded Examples.counted_document
                 1700000000000 1700000000001)
              Examples.product_url) as [product |] eqn:Built;
    [| vm_compute in Built; discriminate Built].
  exists product. split; [reflexivity |].
  assert (ProductInsert.original_price (productInsert product) = of_Z 100
          /\ ProductInsert.price_krw (productInsert product)
             = Some (of_Z 4000)) as [Source Converted].
  { vm_compute in Built. injection Built as <-.
    split; vm_compute; reflexivity. }
  split; [exact Source |]. split; [exact Converted |].
  assert (short_texts Examples.counted_document priceSelectors) as Short
    by (unfold priceSelectors; measure_texts).
  destruct (@stored_prices_ordinary ascii_runtime Examples.counted_document
              Examples.product_url 1700000000000 1700000000001 product
              Short Built)
    as (Bound & _ & _ & Integer).
  split; [exact Bound | exact Integer].
Defined.
